(** * JutulGPT-UI: the attachment pipeline of [useFileUpload]

    A shallow embedding of the file-upload hook ([use-file-upload.tsx]) and of
    the converter it calls ([multimodal-utils.ts]): the support gate, the
    duplicate predicate, the three ingestion entry points (file picker, window
    drop, paste), the drag counter, and [fileToContentBlock].

    Modelling conventions.
    - A JavaScript string is a [string]; file names are taken to be ASCII, so
      [toLowerCase] folds [A-Z] only.
    - A value that may be [undefined]/[null] is an [option].
    - An [async] function is modelled by the way its promise settles
      ([Promise]); [toast.error] calls are collected in a list, in order.
    - [Promise.all] is run against a completion order (the indices of the
      promises in the order in which they settle), as ECMAScript specifies it.
    - The drag counter is a JavaScript number holding a small integer: a [Z]. *)

From Stdlib Require Import String Ascii List Bool Arith ZArith Lia Permutation.
Import ListNotations.

Open Scope list_scope.
Open Scope string_scope.

(* ================================================================== *)
(** ** JavaScript strings and arrays *)
(* ================================================================== *)

Module JS.

(** The line feed of a template literal's [\n]. *)
Definition LF : string := String "010"%char EmptyString.

(** [String.prototype.toLowerCase] on one ASCII character. *)
Definition toLowerCase_char (c : ascii) : ascii :=
  let n := nat_of_ascii c in
  if ((65 <=? n) && (n <=? 90))%nat then ascii_of_nat (n + 32) else c.

(** [s.toLowerCase()]. *)
Fixpoint toLowerCase (s : string) : string :=
  match s with
  | EmptyString => EmptyString
  | String c rest => String (toLowerCase_char c) (toLowerCase rest)
  end.

(** [s.startsWith(search)]: false when [search] is longer than [s], else the
    first [search.length] characters of [s] are compared with [search]. *)
Definition startsWith (s search : string) : bool :=
  if (String.length search <=? String.length s)%nat
  then String.eqb (substring 0 (String.length search) s) search
  else false.

(** [s.endsWith(search)]: with [start = s.length - search.length], false when
    [start < 0], else the characters of [s] from [start] are compared. *)
Definition endsWith (s search : string) : bool :=
  if (String.length search <=? String.length s)%nat
  then String.eqb
         (substring (String.length s - String.length search)
                    (String.length search) s)
         search
  else false.

(** [arr.includes(x)] on an array of strings. *)
Definition includes (arr : list string) (x : string) : bool :=
  existsb (String.eqb x) arr.

(** [arr.some(p)]. *)
Definition some {A : Type} (p : A -> bool) (arr : list A) : bool :=
  existsb p arr.

(** [s.split(sep)] for a one-character separator: the pieces between the
    separators, at least one piece. [cur] is the piece being read, reversed
    into place by appending. *)
Fixpoint split_from (sep : ascii) (cur : string) (s : string) : list string :=
  match s with
  | EmptyString => [cur]
  | String c rest =>
      if Ascii.eqb c sep
      then cur :: split_from sep EmptyString rest
      else split_from sep (cur ++ String c EmptyString) rest
  end.

Definition split (sep : ascii) (s : string) : list string :=
  split_from sep EmptyString s.

(** [arr.join(", ")]. *)
Fixpoint join (sep : string) (arr : list string) : string :=
  match arr with
  | [] => EmptyString
  | [x] => x
  | x :: rest => x ++ sep ++ join sep rest
  end.

(** [s.slice(n)]: [s] without its first [n] characters. *)
Fixpoint drop (n : nat) (s : string) : string :=
  match n, s with
  | O, _ => s
  | S _, EmptyString => EmptyString
  | S k, String _ rest => drop k rest
  end.

(** [s.split(sep)] for a separator string. [skip] counts the characters of
    a separator just matched that are still to be passed over; [cur] is the
    piece being read. An empty separator splits into characters. *)
Fixpoint splitOn_from (sep : string) (skip : nat) (cur : string) (s : string)
  : list string :=
  match s with
  | EmptyString => [cur]
  | String c rest =>
      match skip with
      | S k => splitOn_from sep k cur rest
      | O =>
          if String.prefix sep s
          then cur :: splitOn_from sep (String.length sep - 1) EmptyString rest
          else splitOn_from sep 0 (cur ++ String c EmptyString) rest
      end
  end.

Fixpoint chars (s : string) : list string :=
  match s with
  | EmptyString => []
  | String c rest => String c EmptyString :: chars rest
  end.

Definition splitOn (sep : string) (s : string) : list string :=
  match sep with
  | EmptyString => chars s
  | String _ _ => splitOn_from sep 0 EmptyString s
  end.

(** [s.replace(pattern, replacement)] for a pattern string and a
    replacement without [$]: the first occurrence is replaced. *)
Fixpoint replace (pattern replacement : string) (s : string) : string :=
  match s with
  | EmptyString =>
      match pattern with
      | EmptyString => replacement
      | String _ _ => EmptyString
      end
  | String c rest =>
      if String.prefix pattern s
      then replacement ++ drop (String.length pattern) s
      else String c (replace pattern replacement rest)
  end.

(** The ASCII white space that [trim] removes: tab, line feed, vertical
    tab, form feed, carriage return and space. *)
Definition isWhiteSpace (c : ascii) : bool :=
  let n := nat_of_ascii c in
  ((9 <=? n) && (n <=? 13) || (n =? 32))%nat.

Fixpoint trimStart (s : string) : string :=
  match s with
  | EmptyString => EmptyString
  | String c rest => if isWhiteSpace c then trimStart rest else s
  end.

Fixpoint trimEnd (s : string) : string :=
  match s with
  | EmptyString => EmptyString
  | String c rest =>
      match trimEnd rest with
      | EmptyString => if isWhiteSpace c then EmptyString
                       else String c EmptyString
      | String _ _ as rest' => String c rest'
      end
  end.

(** [s.trim()]. *)
Definition trim (s : string) : string := trimEnd (trimStart s).

End JS.

(* ================================================================== *)
(** ** Data model *)
(* ================================================================== *)

(** A browser [File]: its name, its declared media type, and what its two
    byte accessors deliver. [readAsDataURL] is the [FileReader] result
    ([None]: the reader fires [onerror]); [text] is what [file.text()]
    resolves to ([None]: it rejects). The accessors are read only when the
    file is materialized. *)
Module File.
Record t : Type := mk {
  name : string;
  type : string;
  readAsDataURL : option string;
  text : option string
}.
End File.

(** [metadata] of a base64 block: the two keys this code writes and reads. *)
Module Metadata.
Record t : Type := mk {
  name : option string;
  filename : option string
}.
End Metadata.

(** [Base64ContentBlock["type"]]. *)
Inductive BlockType : Type := image | audio | file.

(** [ContentBlock = Base64ContentBlock | { type: "text"; text: string }].
    A base64 block has [source_type: "base64"], an optional [mime_type], its
    [data] ([None]: [undefined], when the data URL held no comma) and an
    optional [metadata]. *)
Inductive ContentBlock : Type :=
| Base64Block (type : BlockType) (mime_type : option string)
              (data : option string) (metadata : option Metadata.t)
| TextBlock (text : string).

(** Why a promise of this code rejects. *)
Inductive Error : Type :=
| UnsupportedFileType (mime : string)
| ReadError.

(** A settled promise. *)
Inductive Promise (A : Type) : Type :=
| Resolved (a : A)
| Rejected (e : Error).
Arguments Resolved {A} a.
Arguments Rejected {A} e.

(** [value === s] for an optional string [value]. *)
Definition strictEq (value : option string) (s : string) : bool :=
  match value with
  | Some v => String.eqb v s
  | None => false
  end.

(** [await p] followed by the rest of an [async] function: a rejection of
    [p] is thrown, and rejects the function's own promise. *)
Definition await {A B : Type} (p : Promise A) (k : A -> Promise B)
  : Promise B :=
  match p with
  | Resolved a => k a
  | Rejected e => Rejected e
  end.

Notation "'let!' x ':=' p 'in' k" := (await p (fun x => k))
  (at level 10, x name, p at level 100, k at level 200).

(* ================================================================== *)
(** ** JavaScript values *)
(* ================================================================== *)

#[local] Set Warnings "-register-all".

(** What a value of type [unknown] or [any] can be. An object is the list
    of its own properties, each key once; a number is integer-valued. *)
Inductive JSValue : Type :=
| JSUndefined
| JSNull
| JSBool (b : bool)
| JSNumber (n : Z)
| JSString (s : string)
| JSArray (items : list JSValue)
| JSObject (props : list (string * JSValue)).

Module Obj.

(** An object's own properties. *)
Definition t : Type := list (string * JSValue).

(** [o[key]], [None] when the key is missing. *)
Fixpoint get (key : string) (o : t) : option JSValue :=
  match o with
  | [] => None
  | (k, v) :: rest => if String.eqb k key then Some v else get key rest
  end.

(** [key in o]. *)
Definition has (key : string) (o : t) : bool :=
  match get key o with Some _ => true | None => false end.

(** [{ ...o, [key]: v }]: an existing key keeps its place and takes the new
    value, a new key comes last. *)
Fixpoint set (key : string) (v : JSValue) (o : t) : t :=
  match o with
  | [] => [(key, v)]
  | (k, w) :: rest =>
      if String.eqb k key then (k, v) :: rest
      else (k, w) :: set key v rest
  end.

(** The object after [delete o[key]]. *)
Fixpoint delete (key : string) (o : t) : t :=
  match o with
  | [] => []
  | (k, w) :: rest =>
      if String.eqb k key then delete key rest
      else (k, w) :: delete key rest
  end.

(** [{ ...o }] for an optional object: spreading [undefined] gives [{}]. *)
Definition spread (o : option t) : t :=
  match o with Some props => props | None => [] end.

End Obj.

(** [typeof v === "object"]. *)
Definition typeofObject (v : JSValue) : bool :=
  match v with
  | JSNull | JSArray _ | JSObject _ => true
  | _ => false
  end.

(** [key in v] for a value that is an object and one of the property names
    this code asks for (none of them is a property of an array). *)
Definition hasKey (key : string) (v : JSValue) : bool :=
  match v with
  | JSObject props => Obj.has key props
  | _ => false
  end.

(** [v[key]]; [undefined] when the key is missing. *)
Definition prop (key : string) (v : JSValue) : JSValue :=
  match v with
  | JSObject props =>
      match Obj.get key props with Some w => w | None => JSUndefined end
  | _ => JSUndefined
  end.

(** [v === s] for a string [s]. *)
Definition isString (v : JSValue) (s : string) : bool :=
  match v with
  | JSString t => String.eqb t s
  | _ => false
  end.

(** JavaScript truthiness. *)
Definition truthy (v : JSValue) : bool :=
  match v with
  | JSUndefined | JSNull => false
  | JSBool b => b
  | JSNumber n => negb (n =? 0)%Z
  | JSString s => negb (String.eqb s EmptyString)
  | JSArray _ | JSObject _ => true
  end.

(** [a || b] and [a ?? b]. *)
Definition orElse (a b : JSValue) : JSValue := if truthy a then a else b.

Definition nullish (a b : JSValue) : JSValue :=
  match a with
  | JSUndefined | JSNull => b
  | _ => a
  end.

(** The object a content block stands for, with the keys in the order of
    the literals in [fileToContentBlock]; an absent optional key is not a
    property of the object. *)
Definition blockTypeName (ty : BlockType) : string :=
  match ty with
  | image => "image"
  | audio => "audio"
  | file => "file"
  end.

Definition optionalProp (key : string) (value : option string)
  : list (string * JSValue) :=
  match value with
  | Some s => [(key, JSString s)]
  | None => []
  end.

Definition toJS (b : ContentBlock) : JSValue :=
  match b with
  | TextBlock text =>
      JSObject [("type", JSString "text"); ("text", JSString text)]
  | Base64Block ty mime_type data metadata =>
      JSObject
        ([("type", JSString (blockTypeName ty));
          ("source_type", JSString "base64")]
         ++ optionalProp "mime_type" mime_type
         ++ [("data", match data with
                      | Some d => JSString d
                      | None => JSUndefined
                      end)]
         ++ match metadata with
            | Some m =>
                [("metadata",
                  JSObject (optionalProp "name" (Metadata.name m)
                            ++ optionalProp "filename"
                                 (Metadata.filename m))%list)]
            | None => []
            end)%list
  end.

(* ================================================================== *)
(** ** [Promise.all] *)
(* ================================================================== *)

(** [Promise.all(ps)] as ECMAScript runs it. The combined promise keeps an
    array [values] with one slot per input promise and a counter [remaining]
    of the slots still empty. When input promise [i] resolves, its resolve
    element function (which runs once) stores the value in slot [i] and
    decrements the counter, and at zero resolves the combined promise with
    the array; when an input promise rejects, the combined promise is
    rejected with its reason. Settling a promise that is settled already
    does nothing. *)
Module PromiseAll.

Record state (A : Type) : Type := mk {
  values : list (option A);
  remaining : nat;
  settled : option (Promise (list A))
}.
Arguments mk {A} values remaining settled.
Arguments values {A} s.
Arguments remaining {A} s.
Arguments settled {A} s.

(** [values[i] = v]. *)
Fixpoint setAt {A : Type} (i : nat) (v : A) (l : list A) : list A :=
  match l, i with
  | [], _ => []
  | _ :: rest, O => v :: rest
  | x :: rest, S j => x :: setAt j v rest
  end.

(** The array handed over once every slot is filled. *)
Fixpoint filled {A : Type} (l : list (option A)) : list A :=
  match l with
  | [] => []
  | Some v :: rest => v :: filled rest
  | None :: rest => filled rest
  end.

(** Settling the combined promise: only the first settlement counts. *)
Definition settle {A : Type} (r : Promise (list A)) (s : state A) : state A :=
  match settled s with
  | Some _ => s
  | None => mk (values s) (remaining s) (Some r)
  end.

(** The state after the loop over the inputs: for no input the combined
    promise resolves at once with the empty array. *)
Definition start {A : Type} (ps : list (Promise A)) : state A :=
  let s := mk (repeat None (length ps)) (length ps) None in
  match ps with
  | [] => settle (Resolved []) s
  | _ :: _ => s
  end.

(** Input promise [i] settles. *)
Definition step {A : Type} (ps : list (Promise A)) (s : state A) (i : nat)
  : state A :=
  match nth_error ps i with
  | None => s
  | Some (Rejected e) => settle (Rejected e) s
  | Some (Resolved v) =>
      match nth_error (values s) i with
      | Some None =>
          let s' := mk (setAt i (Some v) (values s)) (remaining s - 1)
                       (settled s) in
          if (remaining s' =? 0)%nat
          then settle (Resolved (filled (values s'))) s'
          else s'
      | _ => s
      end
  end.

(** [await Promise.all(ps)] when the inputs settle in the order [order]:
    [None] while the combined promise is pending. *)
Definition all {A : Type} (order : list nat) (ps : list (Promise A))
  : option (Promise (list A)) :=
  settled (fold_left (step ps) order (start ps)).

End PromiseAll.

(* ================================================================== *)
(** ** [lib/multimodal-utils.ts] *)
(* ================================================================== *)

Module MultimodalUtils.

Definition supportedImageTypes : list string :=
  ["image/jpeg"; "image/png"; "image/gif"; "image/webp"].

Definition supportedPdfTypes : list string := ["application/pdf"].

Definition supportedTextTypes : list string :=
  ["text/plain"; "application/json"; "text/x-python"; "text/x-c++src";
   "text/x-csrc"; "text/x-java-source"; "text/markdown"; "text/x-julia";
   ""; "application/octet-stream"].

Definition supportedTextExtensions : list string :=
  [".txt"; ".py"; ".js"; ".ts"; ".jsx"; ".tsx"; ".json"; ".md"; ".markdown";
   ".html"; ".css"; ".scss"; ".sass"; ".less"; ".xml"; ".yaml"; ".yml";
   ".c"; ".cpp"; ".cc"; ".cxx"; ".h"; ".hpp"; ".java"; ".go"; ".rs"; ".rb";
   ".php"; ".sh"; ".bash"; ".zsh"; ".fish"; ".sql"; ".r"; ".jl"; ".swift";
   ".kt"; ".scala"; ".clj"; ".hs"; ".elm"; ".dart"; ".lua"; ".perl"; ".pl";
   ".dockerfile"; ".gitignore"; ".env"; ".log"; ".cfg"; ".conf"; ".ini"].

Definition supportedFileTypes : list string :=
  (supportedImageTypes ++ supportedPdfTypes ++ supportedTextTypes)%list.

(** The inner [isFileSupported] of [fileToContentBlock]. *)
Definition isFileSupported (f : File.t) : bool :=
  if JS.includes supportedFileTypes (File.type f) then true
  else
    let fileName := JS.toLowerCase (File.name f) in
    JS.some (fun ext => JS.endsWith fileName ext) supportedTextExtensions.

(** [fileToBase64]: [onerror] rejects; [onloadend] resolves with
    [result.split(",")[1]], which is [undefined] when there is no comma. *)
Definition fileToBase64 (f : File.t) : Promise (option string) :=
  match File.readAsDataURL f with
  | Some result => Resolved (nth_error (JS.split "," result) 1)
  | None => Rejected ReadError
  end.

(** [file.text()]. *)
Definition fileText (f : File.t) : Promise string :=
  match File.text f with
  | Some body => Resolved body
  | None => Rejected ReadError
  end.

(** [fileToContentBlock]: the toasts it raises, and how its promise settles. *)
Definition fileToContentBlock (f : File.t)
  : list string * Promise ContentBlock :=
  if negb (isFileSupported f) then
    (["Unsupported file type: " ++ File.type f
        ++ ". Supported types are: images, PDFs, and text/code files."],
     Rejected (UnsupportedFileType (File.type f)))
  else if JS.includes supportedImageTypes (File.type f) then
    ([], let! data := fileToBase64 f in
         Resolved (Base64Block image (Some (File.type f)) data
                     (Some (Metadata.mk (Some (File.name f)) None))))
  else if JS.includes supportedPdfTypes (File.type f) then
    ([], let! data := fileToBase64 f in
         Resolved (Base64Block file (Some "application/pdf") data
                     (Some (Metadata.mk None (Some (File.name f))))))
  else if JS.includes supportedTextTypes (File.type f)
          || JS.some (fun ext => JS.endsWith (JS.toLowerCase (File.name f)) ext)
               supportedTextExtensions then
    ([], let! body := fileText f in
         Resolved (TextBlock ("File: " ++ File.name f ++ JS.LF ++ JS.LF ++ body)))
  else
    (["Unsupported file type: " ++ File.type f],
     Rejected (UnsupportedFileType (File.type f))).

(** [typeof v === "string" && p(v)]. *)
Definition whenString (v : JSValue) (p : string -> bool) : bool :=
  match v with
  | JSString s => p s
  | _ => false
  end.

(** The type guard [isBase64ContentBlock]. *)
Definition isBase64ContentBlock (block : JSValue) : bool :=
  if negb (typeofObject block)
     || match block with JSNull => true | _ => false end
     || negb (hasKey "type" block)
  then false
  else if isString (prop "type" block) "file"
          && hasKey "source_type" block
          && isString (prop "source_type" block) "base64"
          && hasKey "mime_type" block
          && whenString (prop "mime_type" block)
               (fun m => JS.startsWith m "image/"
                         || String.eqb m "application/pdf")
  then true
  else if isString (prop "type" block) "image"
          && hasKey "source_type" block
          && isString (prop "source_type" block) "base64"
          && hasKey "mime_type" block
          && whenString (prop "mime_type" block)
               (fun m => JS.startsWith m "image/")
  then true
  else false.

End MultimodalUtils.

(* ================================================================== *)
(** ** [hooks/use-file-upload.tsx]: gate and duplicate predicate *)
(* ================================================================== *)

Module UseFileUpload.

Definition SUPPORTED_FILE_TYPES : list string :=
  ["image/jpeg"; "image/png"; "image/gif"; "image/webp"; "application/pdf";
   "text/plain"; "application/json"; "text/x-python"; "text/x-c++src";
   "text/x-csrc"; "text/x-java-source"; "text/markdown"; "text/x-julia";
   ""; "application/octet-stream"].

Definition SUPPORTED_TEXT_EXTENSIONS : list string :=
  [".txt"; ".py"; ".js"; ".ts"; ".jsx"; ".tsx"; ".json"; ".md"; ".markdown";
   ".html"; ".css"; ".scss"; ".sass"; ".less"; ".xml"; ".yaml"; ".yml";
   ".c"; ".cpp"; ".cc"; ".cxx"; ".h"; ".hpp"; ".java"; ".go"; ".rs"; ".rb";
   ".php"; ".sh"; ".bash"; ".zsh"; ".fish"; ".sql"; ".r"; ".jl"; ".swift";
   ".kt"; ".scala"; ".clj"; ".hs"; ".elm"; ".dart"; ".lua"; ".perl"; ".pl";
   ".dockerfile"; ".gitignore"; ".env"; ".log"; ".cfg"; ".conf"; ".ini"].

(** The hook's gate. *)
Definition isFileSupported (f : File.t) : bool :=
  if JS.includes SUPPORTED_FILE_TYPES (File.type f) then true
  else
    let fileName := JS.toLowerCase (File.name f) in
    JS.some (fun ext => JS.endsWith fileName ext) SUPPORTED_TEXT_EXTENSIONS.

(** [b.metadata?.name] and [b.metadata?.filename]. *)
Definition metadata_name (md : option Metadata.t) : option string :=
  match md with Some m => Metadata.name m | None => None end.

Definition metadata_filename (md : option Metadata.t) : option string :=
  match md with Some m => Metadata.filename m | None => None end.

Definition isSome {A : Type} (o : option A) : bool :=
  match o with Some _ => true | None => false end.

(** The three callbacks of [blocks.some] in [isDuplicate]. *)
Definition sameTextFile (f : File.t) (b : ContentBlock) : bool :=
  match b with
  | TextBlock text =>
      JS.startsWith text ("File: " ++ File.name f ++ JS.LF ++ JS.LF)
  | Base64Block _ _ _ _ => false
  end.

Definition samePdf (f : File.t) (b : ContentBlock) : bool :=
  match b with
  | Base64Block ty mime_type _ metadata =>
      isSome mime_type
      && match ty with file => true | _ => false end
      && strictEq mime_type "application/pdf"
      && isSome metadata
      && strictEq (metadata_filename metadata) (File.name f)
  | TextBlock _ => false
  end.

Definition sameImage (f : File.t) (b : ContentBlock) : bool :=
  match b with
  | Base64Block ty mime_type _ metadata =>
      isSome mime_type
      && match ty with image => true | _ => false end
      && isSome metadata
      && strictEq (metadata_name metadata) (File.name f)
      && strictEq mime_type (File.type f)
  | TextBlock _ => false
  end.

(** The hook-level [isDuplicate (file, blocks)]. *)
Definition isDuplicate (f : File.t) (blocks : list ContentBlock) : bool :=
  let fileName := JS.toLowerCase (File.name f) in
  if JS.some (fun ext => JS.endsWith fileName ext) SUPPORTED_TEXT_EXTENSIONS
  then JS.some (sameTextFile f) blocks
  else if String.eqb (File.type f) "application/pdf"
  then JS.some (samePdf f) blocks
  else if JS.startsWith (File.type f) "image/"
  then JS.some (sameImage f) blocks
  else false.

(* ------------------------------------------------------------------ *)
(** *** What a handler did *)

(** How an [async] handler ended: it returned, it threw (its promise
    rejected), or it is still waiting at an [await]. *)
Inductive Completion : Type :=
| Returned
| Threw (e : Error)
| Suspended.

(** The effects of one handler call. [appended] lists the [newBlocks] of
    every [setContentBlocks((prev) => [...prev, ...newBlocks])] call, in
    order; [toasts] the [toast.error] messages; [defaultPrevented] whether
    [e.preventDefault()] ran; [inputCleared] whether the picker's value was
    reset. *)
Record Outcome : Type := mkOutcome {
  appended : list (list ContentBlock);
  toasts : list string;
  defaultPrevented : bool;
  inputCleared : bool;
  completion : Completion
}.

(** The collection after React has applied the queued updaters to [prev]. *)
Definition commit (prev : list ContentBlock) (o : Outcome)
  : list ContentBlock :=
  fold_left (fun acc newBlocks => (acc ++ newBlocks)%list) (appended o) prev.

Definition invalidUploadToast : string :=
  "You have uploaded an invalid file type. Please upload an image, PDF, or supported text/code file (e.g. .txt, .json, .py, .md, etc.).".

Definition invalidPasteToast : string :=
  "You have pasted an invalid file type. Please paste an image, PDF, or supported text/code file (e.g. .txt, .json, .py, .md, etc.).".

Definition duplicateToast (duplicateFiles : list File.t) : string :=
  "Duplicate file(s) detected: "
  ++ JS.join ", " (map File.name duplicateFiles)
  ++ ". Each file can only be uploaded once per message.".

(** [if (files.length > 0) toast.error(msg)]. *)
Definition toastIfAny {A : Type} (files : list A) (msg : string)
  : list string :=
  match files with
  | [] => []
  | _ :: _ => [msg]
  end.

(** [uniqueFiles.map(fileToContentBlock)]: each call runs up to its first
    [await], so its toasts are raised at once, in array order. *)
Definition startAll (uniqueFiles : list File.t)
  : list string * list (Promise ContentBlock) :=
  let started := map MultimodalUtils.fileToContentBlock uniqueFiles in
  (concat (map fst started), map snd started).

(* ------------------------------------------------------------------ *)
(** *** [handleFileUpload] *)

(** [files] is [e.target.files]; [contentBlocks] the collection the
    handler's closure sees; [order] the order in which the reads finish. *)
Definition handleFileUpload (order : list nat)
    (contentBlocks : list ContentBlock) (files : option (list File.t))
  : Outcome :=
  match files with
  | None => mkOutcome [] [] false false Returned
  | Some fileArray =>
      let validFiles := filter isFileSupported fileArray in
      let invalidFiles :=
        filter (fun f => negb (isFileSupported f)) fileArray in
      let duplicateFiles :=
        filter (fun f => isDuplicate f contentBlocks) validFiles in
      let uniqueFiles :=
        filter (fun f => negb (isDuplicate f contentBlocks)) validFiles in
      let t1 := toastIfAny invalidFiles invalidUploadToast in
      let t2 := toastIfAny duplicateFiles (duplicateToast duplicateFiles) in
      match uniqueFiles with
      | [] => mkOutcome [[]] (t1 ++ t2)%list false true Returned
      | _ :: _ =>
          let (t3, promises) := startAll uniqueFiles in
          let ts := (t1 ++ t2 ++ t3)%list in
          match PromiseAll.all order promises with
          | None => mkOutcome [] ts false false Suspended
          | Some (Rejected e) => mkOutcome [] ts false false (Threw e)
          | Some (Resolved newBlocks) =>
              mkOutcome [newBlocks] ts false true Returned
          end
      end
  end.

(* ------------------------------------------------------------------ *)
(** *** Drag state *)

(** [dragCounter.current] and the [dragOver] state. *)
Record DragState : Type := mkDrag {
  dragCounter : Z;
  dragOver : bool
}.

(** [e.dataTransfer?.types?.includes("Files")]; [types] is [None] when
    [dataTransfer] or its [types] is missing. *)
Definition hasFiles (types : option (list string)) : bool :=
  match types with
  | Some ts => JS.includes ts "Files"
  | None => false
  end.

Definition handleWindowDragEnter (types : option (list string))
    (d : DragState) : DragState :=
  if hasFiles types
  then mkDrag (dragCounter d + 1) true
  else d.

Definition handleWindowDragLeave (types : option (list string))
    (d : DragState) : DragState :=
  if hasFiles types
  then
    let c := (dragCounter d - 1)%Z in
    if (c <=? 0)%Z then mkDrag 0 false else mkDrag c (dragOver d)
  else d.

Definition handleWindowDragEnd (d : DragState) : DragState :=
  mkDrag 0 false.

(** The element-level handlers of the drop target. *)
Definition handleDragOver (d : DragState) : DragState :=
  mkDrag (dragCounter d) true.

Definition handleDragEnter (d : DragState) : DragState :=
  mkDrag (dragCounter d) true.

Definition handleDragLeave (d : DragState) : DragState :=
  mkDrag (dragCounter d) false.

(** The effect's cleanup, run when [contentBlocks] changes or on unmount. *)
Definition cleanup (d : DragState) : DragState :=
  mkDrag 0 (dragOver d).

(* ------------------------------------------------------------------ *)
(** *** [handleWindowDrop] *)

(** [dataTransfer] is [e.dataTransfer?.files]. The handler first resets the
    drag state, then ingests. *)
Definition handleWindowDrop (order : list nat)
    (contentBlocks : list ContentBlock) (dataTransfer : option (list File.t))
    (d : DragState)
  : DragState * Outcome :=
  let d' := mkDrag 0 false in
  match dataTransfer with
  | None => (d', mkOutcome [] [] true false Returned)
  | Some files =>
      let validFiles := filter isFileSupported files in
      let invalidFiles := filter (fun f => negb (isFileSupported f)) files in
      let duplicateFiles :=
        filter (fun f => isDuplicate f contentBlocks) validFiles in
      let uniqueFiles :=
        filter (fun f => negb (isDuplicate f contentBlocks)) validFiles in
      let t1 := toastIfAny invalidFiles invalidUploadToast in
      let t2 := toastIfAny duplicateFiles (duplicateToast duplicateFiles) in
      match uniqueFiles with
      | [] => (d', mkOutcome [[]] (t1 ++ t2)%list true false Returned)
      | _ :: _ =>
          let (t3, promises) := startAll uniqueFiles in
          let ts := (t1 ++ t2 ++ t3)%list in
          match PromiseAll.all order promises with
          | None => (d', mkOutcome [] ts true false Suspended)
          | Some (Rejected e) => (d', mkOutcome [] ts true false (Threw e))
          | Some (Resolved newBlocks) =>
              (d', mkOutcome [newBlocks] ts true false Returned)
          end
      end
  end.

(** The window-level drag events. *)
Inductive WindowEvent : Type :=
| dragenter (types : option (list string))
| dragleave (types : option (list string))
| drop (order : list nat) (contentBlocks : list ContentBlock)
       (dataTransfer : option (list File.t))
| dragend.

Definition dispatch (d : DragState) (e : WindowEvent) : DragState :=
  match e with
  | dragenter types => handleWindowDragEnter types d
  | dragleave types => handleWindowDragLeave types d
  | drop order contentBlocks dataTransfer =>
      fst (handleWindowDrop order contentBlocks dataTransfer d)
  | dragend => handleWindowDragEnd d
  end.

(** The hook starts with [dragCounter = useRef(0)], [dragOver = false]. *)
Definition initialDrag : DragState := mkDrag 0 false.

Definition run (d : DragState) (events : list WindowEvent) : DragState :=
  fold_left dispatch events d.

(* ------------------------------------------------------------------ *)
(** *** [removeBlock], [resetBlocks] *)

(** [prev.filter((_, i) => i !== idx)], walking the array with its index. *)
Fixpoint filterIndexFrom {A : Type} (i : nat) (keep : nat -> bool)
    (l : list A) : list A :=
  match l with
  | [] => []
  | x :: rest =>
      if keep i then x :: filterIndexFrom (S i) keep rest
      else filterIndexFrom (S i) keep rest
  end.

Definition removeBlock (idx : nat) (prev : list ContentBlock)
  : list ContentBlock :=
  filterIndexFrom 0 (fun i => negb (i =? idx)%nat) prev.

Definition resetBlocks (prev : list ContentBlock) : list ContentBlock := [].

(* ------------------------------------------------------------------ *)
(** *** [handlePaste] *)

(** A [DataTransferItem]: its [kind] and what [getAsFile()] returns. *)
Module Item.
Record t : Type := mk {
  kind : string;
  getAsFile : option File.t
}.
End Item.

(** The [for] loop of [handlePaste]: the files of the items of kind
    ["file"] whose [getAsFile()] is not null, in order. *)
Fixpoint pastedFiles (items : list Item.t) : list File.t :=
  match items with
  | [] => []
  | item :: rest =>
      if String.eqb (Item.kind item) "file"
      then match Item.getAsFile item with
           | Some f => f :: pastedFiles rest
           | None => pastedFiles rest
           end
      else pastedFiles rest
  end.

(** The [isDuplicate] that [handlePaste] declares inline, closed over the
    hook's [contentBlocks]. *)
Module Paste.
Definition isDuplicate (contentBlocks : list ContentBlock) (f : File.t)
  : bool :=
  let fileName := JS.toLowerCase (File.name f) in
  if JS.some (fun ext => JS.endsWith fileName ext) SUPPORTED_TEXT_EXTENSIONS
  then
    JS.some
      (fun b =>
         match b with
         | TextBlock text =>
             JS.startsWith text ("File: " ++ File.name f ++ JS.LF ++ JS.LF)
         | Base64Block _ _ _ _ => false
         end)
      contentBlocks
  else if String.eqb (File.type f) "application/pdf"
  then
    JS.some
      (fun b =>
         match b with
         | Base64Block ty mime_type _ metadata =>
             isSome mime_type
             && match ty with file => true | _ => false end
             && strictEq mime_type "application/pdf"
             && isSome metadata
             && strictEq (metadata_filename metadata) (File.name f)
         | TextBlock _ => false
         end)
      contentBlocks
  else if JS.startsWith (File.type f) "image/"
  then
    JS.some
      (fun b =>
         match b with
         | Base64Block ty mime_type _ metadata =>
             isSome mime_type
             && match ty with image => true | _ => false end
             && isSome metadata
             && strictEq (metadata_name metadata) (File.name f)
             && strictEq mime_type (File.type f)
         | TextBlock _ => false
         end)
      contentBlocks
  else false.
End Paste.

(** [items] is [e.clipboardData.items]. *)
Definition handlePaste (order : list nat)
    (contentBlocks : list ContentBlock) (items : option (list Item.t))
  : Outcome :=
  match items with
  | None => mkOutcome [] [] false false Returned
  | Some items =>
      let files := pastedFiles items in
      match files with
      | [] => mkOutcome [] [] false false Returned
      | _ :: _ =>
          let validFiles := filter isFileSupported files in
          let invalidFiles :=
            filter (fun f => negb (isFileSupported f)) files in
          let duplicateFiles :=
            filter (Paste.isDuplicate contentBlocks) validFiles in
          let uniqueFiles :=
            filter (fun f => negb (Paste.isDuplicate contentBlocks f))
                   validFiles in
          let t1 := toastIfAny invalidFiles invalidPasteToast in
          let t2 :=
            toastIfAny duplicateFiles (duplicateToast duplicateFiles) in
          match uniqueFiles with
          | [] => mkOutcome [] (t1 ++ t2)%list true false Returned
          | _ :: _ =>
              let (t3, promises) := startAll uniqueFiles in
              let ts := (t1 ++ t2 ++ t3)%list in
              match PromiseAll.all order promises with
              | None => mkOutcome [] ts true false Suspended
              | Some (Rejected e) => mkOutcome [] ts true false (Threw e)
              | Some (Resolved newBlocks) =>
                  mkOutcome [newBlocks] ts true false Returned
              end
          end
      end
  end.

End UseFileUpload.

(* ================================================================== *)
(** ** [components/thread/ContentBlocksPreview.tsx] *)
(* ================================================================== *)

Module ContentBlocksPreview.

(** What the component renders for one block: a chip with a label for a
    text block, a [MultimodalPreview] for any other. [key] is the React
    key; [remove] is the index its button hands to [onRemove]. *)
Inductive Element : Type :=
| TextChip (key : nat) (label : string) (remove : nat)
| MultimodalPreview (key : nat) (block : ContentBlock) (remove : nat)
                    (size : string).

(** [text.split('\n\n')[0].replace('File: ', '')]. *)
Definition label (text : string) : string :=
  JS.replace "File: " EmptyString
    (hd EmptyString (JS.splitOn (JS.LF ++ JS.LF) text)).

(** [blocks.map((block, idx) => ...)], walking the array with its index. *)
Fixpoint elementsFrom (idx : nat) (size : string)
    (blocks : list ContentBlock) : list Element :=
  match blocks with
  | [] => []
  | TextBlock text :: rest =>
      TextChip idx (label text) idx :: elementsFrom (S idx) size rest
  | (Base64Block _ _ _ _ as block) :: rest =>
      MultimodalPreview idx block idx size :: elementsFrom (S idx) size rest
  end.

(** The component: [None] is [null], nothing rendered. [size] defaults to
    ["md"]. *)
Definition render (blocks : list ContentBlock) (size : option string)
  : option (list Element) :=
  match blocks with
  | [] => None
  | _ :: _ =>
      Some (elementsFrom 0
              (match size with Some sz => sz | None => "md" end) blocks)
  end.

(** The index an element's remove button reports. *)
Definition removeIndex (e : Element) : nat :=
  match e with
  | TextChip _ _ remove => remove
  | MultimodalPreview _ _ remove _ => remove
  end.

End ContentBlocksPreview.

(* ================================================================== *)
(** ** [components/config/runnable-config-panel.tsx] *)
(* ================================================================== *)

Module RunnableConfigPanel.

(** [RunnableConfig]: the three keys the panel edits, and every other key
    of the object. *)
Record RunnableConfig : Type := mkConfig {
  tags : option (list string);
  metadata : option Obj.t;
  configurable : option Obj.t;
  others : Obj.t
}.

(** The component's state. *)
Record State : Type := mkState {
  localConfig : RunnableConfig;
  newTag : string;
  newMetadataKey : string;
  newMetadataValue : string;
  newConfigurableKey : string;
  newConfigurableValue : string
}.

Definition nonEmpty (s : string) : bool := negb (String.eqb s EmptyString).

Definition setTags (c : RunnableConfig) (ts : list string) : RunnableConfig :=
  mkConfig (Some ts) (metadata c) (configurable c) (others c).

Definition setMetadata (c : RunnableConfig) (m : Obj.t) : RunnableConfig :=
  mkConfig (tags c) (Some m) (configurable c) (others c).

Definition setConfigurable (c : RunnableConfig) (m : Obj.t)
  : RunnableConfig :=
  mkConfig (tags c) (metadata c) (Some m) (others c).

(** [localConfig.tags?.includes(t)], [undefined] read as false by [!]. *)
Definition tagsInclude (c : RunnableConfig) (t : string) : bool :=
  match tags c with
  | Some ts => JS.includes ts t
  | None => false
  end.

(** [localConfig.tags || []]. *)
Definition tagsOrEmpty (c : RunnableConfig) : list string :=
  match tags c with Some ts => ts | None => [] end.

Definition addTag (st : State) : State :=
  let t := JS.trim (newTag st) in
  if nonEmpty t && negb (tagsInclude (localConfig st) t)
  then mkState (setTags (localConfig st) (tagsOrEmpty (localConfig st) ++ [t])%list)
         EmptyString (newMetadataKey st) (newMetadataValue st)
         (newConfigurableKey st) (newConfigurableValue st)
  else st.

Definition withConfig (st : State) (c : RunnableConfig) : State :=
  mkState c (newTag st) (newMetadataKey st) (newMetadataValue st)
    (newConfigurableKey st) (newConfigurableValue st).

Definition removeTag (tagToRemove : string) (st : State) : State :=
  withConfig st
    (setTags (localConfig st)
       (match tags (localConfig st) with
        | Some ts => filter (fun tag => negb (String.eqb tag tagToRemove)) ts
        | None => []
        end)).

Definition addMetadata (st : State) : State :=
  let k := JS.trim (newMetadataKey st) in
  let v := JS.trim (newMetadataValue st) in
  if nonEmpty k && nonEmpty v
  then mkState
         (setMetadata (localConfig st)
            (Obj.set k (JSString v) (Obj.spread (metadata (localConfig st)))))
         (newTag st) EmptyString EmptyString
         (newConfigurableKey st) (newConfigurableValue st)
  else st.

Definition removeMetadata (key : string) (st : State) : State :=
  withConfig st
    (setMetadata (localConfig st)
       (Obj.delete key (Obj.spread (metadata (localConfig st))))).

Definition addConfigurable (st : State) : State :=
  let k := JS.trim (newConfigurableKey st) in
  let v := JS.trim (newConfigurableValue st) in
  if nonEmpty k && nonEmpty v
  then mkState
         (setConfigurable (localConfig st)
            (Obj.set k (JSString v)
               (Obj.spread (configurable (localConfig st)))))
         (newTag st) (newMetadataKey st) (newMetadataValue st)
         EmptyString EmptyString
  else st.

Definition removeConfigurable (key : string) (st : State) : State :=
  withConfig st
    (setConfigurable (localConfig st)
       (Obj.delete key (Obj.spread (configurable (localConfig st))))).

(** [localConfig.configurable?.[key]]. *)
Definition configurableProp (key : string) (c : RunnableConfig) : JSValue :=
  match configurable c with
  | Some o => prop key (JSObject o)
  | None => JSUndefined
  end.

(** [localConfig.configurable?.use_local_model ?? false], as a condition. *)
Definition useLocalModel (c : RunnableConfig) : bool :=
  truthy (nullish (configurableProp "use_local_model" c) (JSBool false)).

(** The [Use Local Model] switch. *)
Definition onUseLocalModelChange (checked : bool) (st : State) : State :=
  withConfig st
    (setConfigurable (localConfig st)
       (Obj.set "embedding_model"
          (JSString (if checked then "ollama/nomic-embed-text"
                     else "openai/text-embedding-3-small"))
          (Obj.set "response_model"
             (JSString (if checked then "ollama/qwen3:14b"
                        else "openai/gpt-4.1-mini"))
             (Obj.set "use_local_model" (JSBool checked)
                (Obj.spread (configurable (localConfig st))))))).

(** The two model selects: the value shown, the options offered, and the
    change handler. *)
Definition responseModelValue (c : RunnableConfig) : JSValue :=
  orElse (configurableProp "response_model" c)
    (JSString (if useLocalModel c then "ollama/qwen3:14b"
               else "openai/gpt-4.1-mini")).

Definition responseModelOptions (c : RunnableConfig) : list string :=
  if useLocalModel c
  then ["ollama/qwen3:14b"; "ollama/llama3-groq-tool-use:8b"]
  else ["openai/gpt-4.1-mini"; "openai/gpt-4.1"].

Definition onResponseModelChange (value : string) (st : State) : State :=
  withConfig st
    (setConfigurable (localConfig st)
       (Obj.set "response_model" (JSString value)
          (Obj.spread (configurable (localConfig st))))).

Definition embeddingModelValue (c : RunnableConfig) : JSValue :=
  orElse (configurableProp "embedding_model" c)
    (JSString (if useLocalModel c then "ollama/nomic-embed-text"
               else "openai/text-embedding-3-small")).

Definition embeddingModelOptions (c : RunnableConfig) : list string :=
  if useLocalModel c
  then ["ollama/nomic-embed-text"]
  else ["openai/text-embedding-3-small"].

Definition onEmbeddingModelChange (value : string) (st : State) : State :=
  withConfig st
    (setConfigurable (localConfig st)
       (Obj.set "embedding_model" (JSString value)
          (Obj.spread (configurable (localConfig st))))).

(** The keys the panel has controls of its own for. *)
Definition builtInKeys : list string :=
  ["use_local_model"; "retrieve_fimbul"; "max_iterations";
   "human_interaction"; "allow_package_installation"; "n_retrieve";
   "response_model"; "embedding_model"; "retriever_provider"; "search_type";
   "search_kwargs"; "rerank_provider"; "rerank_kwargs";
   "default_coder_prompt"].

(** The custom parameters listed, each with a remove button:
    [Object.entries(localConfig.configurable || {}).filter(([key]) =>
    !builtInKeys.includes(key))]. *)
Definition customEntries (c : RunnableConfig) : list (string * JSValue) :=
  filter (fun entry => negb (JS.includes builtInKeys (fst entry)))
    (Obj.spread (configurable c)).

End RunnableConfigPanel.

(* ================================================================== *)
(** ** The pipeline, named *)
(* ================================================================== *)

(** Names for what the three entry points compute, used to state the
    properties below. *)
Module Pipeline.
Import JS MultimodalUtils UseFileUpload.

(** The file name, folded to lower case, ends with an allow-listed
    extension. *)
Definition hasTextExtension (f : File.t) : bool :=
  JS.some (fun ext => JS.endsWith (JS.toLowerCase (File.name f)) ext)
    UseFileUpload.SUPPORTED_TEXT_EXTENSIONS.

(** The blocks [fileToContentBlock] builds for [f]. *)
Definition imageBlock (f : File.t) (data : option string) : ContentBlock :=
  Base64Block image (Some (File.type f)) data
    (Some (Metadata.mk (Some (File.name f)) None)).

Definition documentBlock (f : File.t) (data : option string) : ContentBlock :=
  Base64Block file (Some "application/pdf") data
    (Some (Metadata.mk None (Some (File.name f)))).

Definition textBlock (f : File.t) (body : string) : ContentBlock :=
  TextBlock ("File: " ++ File.name f ++ JS.LF ++ JS.LF ++ body).

(** [b] is an Image, Document or Text block made from [f]. *)
Definition blockOf (f : File.t) (b : ContentBlock) : Prop :=
  (In (File.type f) supportedImageTypes
   /\ exists data, b = imageBlock f data)
  \/ (File.type f = "application/pdf"
      /\ exists data, b = documentBlock f data)
  \/ (exists body, File.text f = Some body /\ b = textBlock f body).

(** The four arrays every entry point computes from its input. *)
Definition validFiles (files : list File.t) : list File.t :=
  filter UseFileUpload.isFileSupported files.

Definition invalidFiles (files : list File.t) : list File.t :=
  filter (fun f => negb (UseFileUpload.isFileSupported f)) files.

Definition duplicateFiles (contentBlocks : list ContentBlock)
    (files : list File.t) : list File.t :=
  filter (fun f => isDuplicate f contentBlocks) (validFiles files).

Definition uniqueFiles (contentBlocks : list ContentBlock)
    (files : list File.t) : list File.t :=
  filter (fun f => negb (isDuplicate f contentBlocks)) (validFiles files).

(** How the promise of [fileToContentBlock f] settles. *)
Definition materialize (f : File.t) : Promise ContentBlock :=
  snd (MultimodalUtils.fileToContentBlock f).

(** The materialization of [f] fails. *)
Definition readFails (f : File.t) : Prop :=
  exists e, materialize f = Rejected e.

(** The bytes of [f] can be read: both accessors deliver. *)
Definition readable (f : File.t) : Prop :=
  File.readAsDataURL f <> None /\ File.text f <> None.

(** Every read has finished: each index of [us] occurs in [order]. *)
Definition complete (order : list nat) (us : list File.t) : Prop :=
  forall i, i < length us -> In i order.

(** [await Promise.all(us.map(fileToContentBlock))]. *)
Definition awaitAll (order : list nat) (us : list File.t)
  : option (Promise (list ContentBlock)) :=
  PromiseAll.all order (map materialize us).

(** The toasts of the two partitions; [invalid] is the entry point's own
    message. *)
Definition partitionToasts (invalid : string)
    (contentBlocks : list ContentBlock) (files : list File.t) : list string :=
  (toastIfAny (invalidFiles files) invalid
   ++ toastIfAny (duplicateFiles contentBlocks files)
        (duplicateToast (duplicateFiles contentBlocks files)))%list.

(** The rest of an ingestion after the partition: what is appended, whether
    the input is cleared (for the picker), and how the handler ends. *)
Definition finish (order : list nat) (us : list File.t)
    (ts : list string) (prevented clears : bool) : Outcome :=
  match awaitAll order us with
  | None => mkOutcome [] ts prevented false Suspended
  | Some (Rejected e) => mkOutcome [] ts prevented false (Threw e)
  | Some (Resolved newBlocks) =>
      mkOutcome [newBlocks] ts prevented clears Returned
  end.

(** One ingestion call, at any of the three entry points, with what the
    browser handed over. *)
Inductive Call : Type :=
| Selection (files : list File.t)
| WindowDrop (files : list File.t) (d : DragState)
| ClipboardPaste (items : list Item.t).

(** The files of the call, in the order of the input. *)
Definition input (c : Call) : list File.t :=
  match c with
  | Selection files => files
  | WindowDrop files _ => files
  | ClipboardPaste items => pastedFiles items
  end.

Definition ingest (order : list nat) (contentBlocks : list ContentBlock)
    (c : Call) : Outcome :=
  match c with
  | Selection files => handleFileUpload order contentBlocks (Some files)
  | WindowDrop files d =>
      snd (handleWindowDrop order contentBlocks (Some files) d)
  | ClipboardPaste items => handlePaste order contentBlocks (Some items)
  end.

(** The blocks [bs] are, position by position, what the files [us]
    resolved to. *)
Definition blocksOf (us : list File.t) (bs : list ContentBlock) : Prop :=
  Forall2 (fun f b => materialize f = Resolved b) us bs.

(** The call [o] left the collection [prev] alone: it made no
    [setContentBlocks] call and did not return normally; once the reads of
    [us] have all finished, it has thrown the read error. *)
Definition appendsNothing (prev : list ContentBlock) (order : list nat)
    (us : list File.t) (o : Outcome) : Prop :=
  appended o = []
  /\ commit prev o = prev
  /\ completion o <> Returned
  /\ (complete order us -> completion o = Threw ReadError).

End Pipeline.

(* ================================================================== *)
(** ** Sample files *)
(* ================================================================== *)

Module Samples.

Definition a_png : File.t :=
  File.mk "A.png" "image/png"
    (Some "data:image/png;base64,iVBORw0KGgo=") (Some "PNG").

Definition b_pdf : File.t :=
  File.mk "B.pdf" "application/pdf"
    (Some "data:application/pdf;base64,JVBERi0=") (Some "%PDF-").

Definition c_txt : File.t :=
  File.mk "C.txt" "text/plain"
    (Some "data:text/plain;base64,aGVsbG8=") (Some "hello").

(** [notes.txt], and a file that differs from it in case only. *)
Definition notes_txt : File.t :=
  File.mk "notes.txt" "text/plain"
    (Some "data:text/plain;base64,bm90ZXM=") (Some "notes").

Definition Notes_txt : File.t :=
  File.mk "Notes.txt" "text/plain"
    (Some "data:text/plain;base64,bm90ZXM=") (Some "notes").

(** An executable that the browser hands over with no media type. *)
Definition setup_exe : File.t :=
  File.mk "setup.exe" "" (Some "data:;base64,TVo=") (Some "MZ").

(** A PDF whose name ends like a text file's. *)
Definition scan_txt : File.t :=
  File.mk "scan.txt" "application/pdf"
    (Some "data:application/pdf;base64,JVBERi0=") (Some "%PDF-").

(** An archive, which no allow-list knows. *)
Definition x_zip : File.t :=
  File.mk "x.zip" "application/zip"
    (Some "data:application/zip;base64,UEsDBA==") (Some "PK").

(** A plain-text file whose name has no extension. *)
Definition readme : File.t :=
  File.mk "README" "text/plain"
    (Some "data:text/plain;base64,aGk=") (Some "hi").

(** An image whose bytes cannot be read. *)
Definition broken_png : File.t :=
  File.mk "broken.png" "image/png" None None.

(** The drag payload of a file drag. *)
Definition Files : option (list string) := Some ["Files"].

End Samples.

(* ================================================================== *)
(** ** Further names *)
(* ================================================================== *)

(** Names used to state the further properties of the hook, the
    converter, the preview and the configuration panel. *)
Module Vocabulary.
Import JS MultimodalUtils UseFileUpload Pipeline Samples.
Import ContentBlocksPreview RunnableConfigPanel.

(** The character [c] occurs in [s]. *)
Fixpoint hasChar (c : ascii) (s : string) : bool :=
  match s with
  | EmptyString => false
  | String a rest => Ascii.eqb a c || hasChar c rest
  end.

(** The name has a text extension exactly when the media type is neither
    an allow-listed image type nor PDF: the two classification passes
    agree on [f]. *)
Definition passesAgree (f : File.t) : Prop :=
  hasTextExtension f
  = negb (includes supportedImageTypes (File.type f)
          || includes supportedPdfTypes (File.type f)).

(** The invalid-type message of the call's entry point. *)
Definition invalidToastOf (c : Call) : string :=
  match c with
  | ClipboardPaste _ => invalidPasteToast
  | _ => invalidUploadToast
  end.

(** [n] drag-enter events, then [m] drag-leave events, all carrying
    files. *)
Definition entersThenLeaves (n m : nat) : list WindowEvent :=
  (repeat (dragenter Files) n ++ repeat (dragleave Files) m)%list.

(** The element [e] is what the preview shows for block [b] at position
    [k], at the default size when none is given. *)
Definition shows (size : option string) (k : nat) (b : ContentBlock)
    (e : Element) : Prop :=
  match b, e with
  | TextBlock text, TextChip key lbl _ => key = k /\ lbl = label text
  | Base64Block _ _ _ _, MultimodalPreview key block _ sz =>
      key = k /\ block = b
      /\ sz = match size with Some s => s | None => "md" end
  | _, _ => False
  end.

(** The objects [o1] and [o2] have the same properties. *)
Definition sameProps (o1 o2 : Obj.t) : Prop :=
  forall key, Obj.get key o1 = Obj.get key o2.

(** A panel state with two tags and [" draft "] typed into the tag input. *)
Definition sampleState : State :=
  mkState
    (mkConfig (Some ["alpha"; "beta"]) None
       (Some [("use_local_model", JSBool false);
              ("response_model", JSString "ollama/qwen3:14b")])
       [])
    " draft " " owner " " me " " max_iterations " " 7 ".

End Vocabulary.

(* ================================================================== *)
(** * Properties *)
(* ================================================================== *)

(* ================================================================== *)
(** ** Strings *)
(* ================================================================== *)

Module JSFacts.
Import JS.

Lemma substring_0_app (p r : string) :
  substring 0 (String.length p) (p ++ r) = p.
Proof.
  induction p as [|c p IH]; simpl.
  - destruct r; reflexivity.
  - now rewrite IH.
Qed.

Lemma substring_0_inv (p s : string) :
  String.length p <= String.length s ->
  substring 0 (String.length p) s = p ->
  exists r, s = p ++ r.
Proof.
  revert s; induction p as [|c p IH]; intros s Hlen Hsub.
  - now exists s.
  - destruct s as [|b s]; simpl in *; [lia|].
    injection Hsub as -> Hsub.
    destruct (IH s ltac:(lia) Hsub) as [r ->].
    now exists r.
Qed.

Lemma append_length (s t : string) :
  String.length (s ++ t) = String.length s + String.length t.
Proof. induction s; simpl; auto. Qed.

Lemma append_empty_r (s : string) : s ++ "" = s.
Proof. induction s; simpl; congruence. Qed.

Lemma append_assoc (s t u : string) : (s ++ t) ++ u = s ++ t ++ u.
Proof. induction s; simpl; congruence. Qed.

(** [startsWith] decides "has this prefix". *)
Lemma startsWith_spec (s p : string) :
  startsWith s p = true <-> exists r, s = p ++ r.
Proof.
  unfold startsWith; split.
  - destruct (Nat.leb_spec (String.length p) (String.length s)) as [Hle|];
      [|discriminate].
    intros H; apply String.eqb_eq in H.
    now apply substring_0_inv.
  - intros [r ->].
    rewrite append_length.
    destruct (Nat.leb_spec (String.length p) (String.length p + String.length r));
      [|lia].
    rewrite substring_0_app. apply String.eqb_refl.
Qed.

Lemma substring_0_full (s : string) : substring 0 (String.length s) s = s.
Proof.
  induction s as [|c s IH]; simpl; congruence.
Qed.

Lemma substring_skip (pre suf : string) :
  substring (String.length pre) (String.length suf) (pre ++ suf) = suf.
Proof.
  induction pre as [|c pre IH]; simpl; auto using substring_0_full.
Qed.

Lemma substring_skip_inv (n : nat) : forall (s suf : string),
  n + String.length suf = String.length s ->
  substring n (String.length suf) s = suf ->
  exists pre, s = pre ++ suf.
Proof.
  induction n as [|n IH]; intros s suf Hlen Hsub.
  - exists "". simpl in *. rewrite Hlen in Hsub.
    rewrite substring_0_full in Hsub. now subst.
  - destruct s as [|c s]; simpl in *; [lia|].
    destruct (IH s suf ltac:(lia) Hsub) as [pre ->].
    now exists (String c pre).
Qed.

(** [endsWith] decides "has this suffix". *)
Lemma endsWith_spec (s suf : string) :
  endsWith s suf = true <-> exists pre, s = pre ++ suf.
Proof.
  unfold endsWith; split.
  - destruct (Nat.leb_spec (String.length suf) (String.length s)) as [Hle|];
      [|discriminate].
    intros H; apply String.eqb_eq in H.
    apply (substring_skip_inv (String.length s - String.length suf)); auto.
    lia.
  - intros [pre ->].
    rewrite append_length.
    destruct (Nat.leb_spec (String.length suf)
                (String.length pre + String.length suf)); [|lia].
    replace (String.length pre + String.length suf - String.length suf)
      with (String.length pre) by lia.
    rewrite substring_skip. apply String.eqb_refl.
Qed.

(** [includes] decides membership. *)
Lemma includes_spec (arr : list string) (x : string) :
  includes arr x = true <-> In x arr.
Proof.
  unfold includes. rewrite existsb_exists. split.
  - intros [y [Hy Heq]]. apply String.eqb_eq in Heq. now subst.
  - intros H. exists x. split; auto. apply String.eqb_refl.
Qed.

Lemma includes_app (l1 l2 : list string) (x : string) :
  includes (l1 ++ l2)%list x = includes l1 x || includes l2 x.
Proof. unfold includes. apply existsb_app. Qed.

End JSFacts.

(* ================================================================== *)
(** ** [Promise.all] *)
(* ================================================================== *)

Module PromiseAllFacts.
Import PromiseAll.

(** The empty slots of [values]. *)
Fixpoint holes {A : Type} (l : list (option A)) : nat :=
  match l with
  | [] => 0
  | None :: rest => S (holes rest)
  | Some _ :: rest => holes rest
  end.

Section Run.
Context {A : Type}.
Variable ps : list (Promise A).

Lemma setAt_length (i : nat) (v : option A) (l : list (option A)) :
  length (setAt i v l) = length l.
Proof.
  revert i; induction l as [|x l IH]; intros [|i]; simpl; auto.
Qed.

Lemma setAt_same (i : nat) (v : option A) (l : list (option A)) :
  i < length l -> nth_error (setAt i v l) i = Some v.
Proof.
  revert i; induction l as [|x l IH]; intros [|i] H; simpl in *;
    try lia; auto.
  apply IH; lia.
Qed.

Lemma setAt_other (i j : nat) (v : option A) (l : list (option A)) :
  i <> j -> nth_error (setAt i v l) j = nth_error l j.
Proof.
  revert i j; induction l as [|x l IH]; intros [|i] [|j] H; simpl;
    auto; try congruence.
Qed.

Lemma setAt_holes (i : nat) (v : A) (l : list (option A)) :
  nth_error l i = Some None ->
  S (holes (setAt i (Some v) l)) = holes l.
Proof.
  revert i; induction l as [|x l IH]; intros [|i] H; simpl in *;
    try discriminate.
  - now injection H as ->.
  - destruct x; simpl; auto.
Qed.

(** An array without holes, slot by slot the value of its promise, is the
    array of the promises' values in input order. *)
Lemma filled_all (l : list (option A)) : forall qs : list (Promise A),
  length l = length qs ->
  holes l = 0 ->
  (forall i v, nth_error l i = Some (Some v) ->
               nth_error qs i = Some (Resolved v)) ->
  qs = map Resolved (filled l).
Proof.
  induction l as [|x l IH]; intros [|q qs] Hlen Hh Hv; simpl in *;
    try discriminate; auto.
  destruct x as [v|]; [|discriminate].
  simpl. f_equal.
  - specialize (Hv 0 v eq_refl). simpl in Hv. congruence.
  - apply IH; auto. intros i w Hi. apply (Hv (S i) w Hi).
Qed.

(** What every reachable state of the combined promise satisfies. *)
Record Inv (s : state A) : Prop := {
  inv_length : length (values s) = length ps;
  inv_values : forall i v, nth_error (values s) i = Some (Some v) ->
                           nth_error ps i = Some (Resolved v);
  inv_remaining : remaining s = holes (values s);
  inv_pending : settled s = None -> 0 < remaining s;
  inv_resolved : forall vs, settled s = Some (Resolved vs) ->
                            ps = map Resolved vs;
  inv_rejected : forall e, settled s = Some (Rejected e) ->
                           In (Rejected e) ps
}.

Lemma holes_repeat (n : nat) : holes (repeat (@None A) n) = n.
Proof. induction n; simpl; auto. Qed.

Lemma nth_error_repeat_None (n i : nat) (v : A) :
  nth_error (repeat (@None A) n) i <> Some (Some v).
Proof.
  revert i; induction n as [|n IH]; intros [|i]; simpl; try discriminate.
  apply IH.
Qed.

Lemma Inv_start : Inv (start ps).
Proof.
  unfold start. destruct ps as [|p qs] eqn:E.
  - constructor; rewrite ?E; simpl; auto; try discriminate.
    + intros [|i] v; discriminate.
    + intros vs H. injection H as <-. reflexivity.
  - constructor; rewrite ?E; cbn [values remaining settled];
      try discriminate.
    + apply repeat_length.
    + intros i v H. now apply nth_error_repeat_None in H.
    + now rewrite holes_repeat.
    + simpl; lia.
Qed.

Lemma Inv_step (s : state A) (i : nat) : Inv s -> Inv (step ps s i).
Proof.
  intros I. unfold step.
  destruct (nth_error ps i) as [[v|e]|] eqn:Ei; auto.
  - (* promise [i] resolved *)
    destruct (nth_error (values s) i) as [[w|]|] eqn:Es; auto.
    assert (Hi : i < length (values s))
      by (apply nth_error_Some; congruence).
    pose proof (setAt_holes i v (values s) Es) as Hh.
    destruct I as [Il Iv Ir Ip Ires Irej].
    assert (Hl : length (setAt i (Some v) (values s)) = length ps)
      by now rewrite setAt_length.
    assert (Hv : forall j w, nth_error (setAt i (Some v) (values s)) j
                             = Some (Some w) ->
                             nth_error ps j = Some (Resolved w)).
    { intros j w Hj. destruct (Nat.eq_dec i j) as [<-|Hne].
      - rewrite setAt_same in Hj by auto. congruence.
      - rewrite setAt_other in Hj by auto. auto. }
    cbn [remaining values].
    destruct (Nat.eqb_spec (remaining s - 1) 0) as [Hz|Hnz].
    + unfold settle; cbn [settled values remaining].
      destruct (settled s) as [r|] eqn:Hs.
      * constructor; cbn [values remaining settled]; auto; try lia.
        discriminate.
      * constructor; cbn [values remaining settled]; auto; try lia;
          try discriminate.
        intros vs H. injection H as <-.
        apply filled_all; auto. lia.
    + constructor; cbn [values remaining settled]; auto; lia.
  - (* promise [i] rejected *)
    unfold settle. destruct (settled s) as [r|] eqn:Hs; auto.
    destruct I as [Il Iv Ir Ip Ires Irej].
    constructor; cbn [values remaining settled]; auto; try discriminate.
    intros e' H. injection H as <-. eapply nth_error_In; eauto.
Qed.

Lemma Inv_run (order : list nat) (s : state A) :
  Inv s -> Inv (fold_left (step ps) order s).
Proof.
  revert s; induction order as [|i order IH]; intros s I; simpl; auto.
  apply IH, Inv_step, I.
Qed.

(** Promise [i] has been heard: its value is stored, or the combined
    promise is settled. *)
Definition heard (s : state A) (i : nat) : Prop :=
  (exists v, nth_error (values s) i = Some (Some v)) \/ settled s <> None.

Lemma heard_step_mono (s : state A) (i j : nat) :
  heard s j -> heard (step ps s i) j.
Proof.
  intros H. unfold step.
  destruct (nth_error ps i) as [[v|e]|] eqn:Ei; auto.
  - destruct (nth_error (values s) i) as [[w|]|] eqn:Es; auto.
    assert (Hs' : heard (mk (setAt i (Some v) (values s)) (remaining s - 1)
                            (settled s)) j).
    { destruct H as [[w Hw]|Hs]; [left|right; exact Hs].
      cbn [values]. destruct (Nat.eq_dec i j) as [<-|Hne].
      - congruence.
      - exists w. now rewrite setAt_other. }
    cbn [remaining]. destruct (remaining s - 1 =? 0)%nat; auto.
    unfold settle; cbn [settled].
    destruct (settled s) eqn:Hs; [rewrite <- Hs in *; exact Hs'|].
    right. cbn [settled]. discriminate.
  - unfold settle. destruct (settled s) eqn:Hs; auto.
    right. cbn [settled]. discriminate.
Qed.

Lemma heard_step (s : state A) (i : nat) :
  Inv s -> i < length ps -> heard (step ps s i) i.
Proof.
  intros I Hi. unfold step.
  destruct (nth_error ps i) as [[v|e]|] eqn:Ei.
  - destruct (nth_error (values s) i) as [[w|]|] eqn:Es.
    + left; eauto.
    + assert (Hs' : heard (mk (setAt i (Some v) (values s))
                              (remaining s - 1) (settled s)) i).
      { left. exists v. cbn [values]. apply setAt_same.
        apply nth_error_Some. congruence. }
      cbn [remaining]. destruct (remaining s - 1 =? 0)%nat; auto.
      unfold settle; cbn [settled].
      destruct (settled s) eqn:Hs; [rewrite <- Hs in *; exact Hs'|].
      right. cbn [settled]. discriminate.
    + apply nth_error_None in Es. rewrite (inv_length _ I) in Es. lia.
  - unfold settle. destruct (settled s) eqn:Hs.
    + right. congruence.
    + right. cbn [settled]. discriminate.
  - apply nth_error_None in Ei. lia.
Qed.

Lemma heard_run_mono (order : list nat) (s : state A) (j : nat) :
  heard s j -> heard (fold_left (step ps) order s) j.
Proof.
  revert s; induction order as [|i order IH]; intros s H; simpl; auto.
  apply IH, heard_step_mono, H.
Qed.

Lemma heard_run (order : list nat) (s : state A) (j : nat) :
  Inv s -> j < length ps -> In j order ->
  heard (fold_left (step ps) order s) j.
Proof.
  revert s; induction order as [|i order IH]; intros s I Hj Hin;
    simpl in *; [contradiction|].
  destruct Hin as [->|Hin].
  - apply heard_run_mono, heard_step; auto.
  - apply IH; auto using Inv_step.
Qed.

(** An array whose every slot is heard and filled has no hole. *)
Lemma no_holes (l : list (option A)) :
  (forall i, i < length l -> exists v, nth_error l i = Some (Some v)) ->
  holes l = 0.
Proof.
  induction l as [|x l IH]; intros H; simpl; auto.
  destruct x as [v|].
  - apply IH. intros i Hi. apply (H (S i)). simpl; lia.
  - destruct (H 0) as [v Hv]; simpl; [lia|discriminate].
Qed.

(** Resolution hands over the promises' values in input order, whatever
    the completion order was. *)
Lemma all_resolved (order : list nat) (vs : list A) :
  all order ps = Some (Resolved vs) -> ps = map Resolved vs.
Proof.
  unfold all. intros H.
  exact (inv_resolved _ (Inv_run order _ Inv_start) vs H).
Qed.

(** A rejection carries the reason of one of the input promises. *)
Lemma all_rejected (order : list nat) (e : Error) :
  all order ps = Some (Rejected e) -> In (Rejected e) ps.
Proof.
  unfold all. intros H.
  exact (inv_rejected _ (Inv_run order _ Inv_start) e H).
Qed.

(** Once every input promise has settled, so has the combined one. *)
Lemma all_settles (order : list nat) :
  (forall i, i < length ps -> In i order) -> all order ps <> None.
Proof.
  intros Hcov Hnone. unfold all in Hnone.
  pose proof (Inv_run order _ Inv_start) as I.
  set (s := fold_left (step ps) order (start ps)) in *.
  pose proof (inv_pending _ I Hnone) as Hpos.
  rewrite (inv_remaining _ I) in Hpos.
  rewrite no_holes in Hpos; [lia|].
  intros i Hi. rewrite (inv_length _ I) in Hi.
  destruct (heard_run order (start ps) i Inv_start Hi (Hcov i Hi))
    as [Hv|Hs]; [exact Hv|contradiction].
Qed.

End Run.

Lemma map_Resolved_inj {A : Type} (l1 l2 : list A) :
  map (@Resolved A) l1 = map (@Resolved A) l2 -> l1 = l2.
Proof.
  revert l2; induction l1 as [|x l1 IH]; intros [|y l2] H; simpl in *;
    try discriminate; auto.
  injection H as -> H. f_equal; auto.
Qed.

(** When every input promise resolves and all of them settle, the combined
    promise resolves with the values in input order. *)
Lemma all_of_resolved {A : Type} (order : list nat) (vs : list A) :
  (forall i, i < length vs -> In i order) ->
  all order (map Resolved vs) = Some (Resolved vs).
Proof.
  intros Hcov.
  destruct (all order (map Resolved vs)) as [[ws|e]|] eqn:E.
  - apply all_resolved in E. apply map_Resolved_inj in E. now subst.
  - apply all_rejected in E. apply in_map_iff in E.
    destruct E as [x [Hx _]]. discriminate.
  - exfalso. revert E. apply all_settles. now rewrite length_map.
Qed.

End PromiseAllFacts.

(* ================================================================== *)
(** ** The gate and the converter *)
(* ================================================================== *)

Module GateFacts.
Import JS JSFacts MultimodalUtils Pipeline.

Lemma hasTextExtension_spec (f : File.t) :
  hasTextExtension f = true <->
  exists ext pre,
    In ext UseFileUpload.SUPPORTED_TEXT_EXTENSIONS
    /\ JS.toLowerCase (File.name f) = pre ++ ext.
Proof.
  unfold hasTextExtension, JS.some. rewrite existsb_exists. split.
  - intros [ext [Hin H]]. apply endsWith_spec in H. destruct H as [pre H].
    now exists ext, pre.
  - intros [ext [pre [Hin H]]]. exists ext. split; auto.
    apply endsWith_spec. now exists pre.
Qed.

(** The two copies of the allow-lists agree. *)
Lemma same_file_types :
  supportedFileTypes = UseFileUpload.SUPPORTED_FILE_TYPES.
Proof. reflexivity. Qed.

Lemma same_text_extensions :
  supportedTextExtensions = UseFileUpload.SUPPORTED_TEXT_EXTENSIONS.
Proof. reflexivity. Qed.

Lemma same_gate (f : File.t) :
  MultimodalUtils.isFileSupported f = UseFileUpload.isFileSupported f.
Proof. reflexivity. Qed.

(** The gate, by the converter's three lists. *)
Lemma gate_split (f : File.t) :
  UseFileUpload.isFileSupported f =
  includes supportedImageTypes (File.type f)
  || includes supportedPdfTypes (File.type f)
  || includes supportedTextTypes (File.type f)
  || hasTextExtension f.
Proof.
  unfold UseFileUpload.isFileSupported.
  change UseFileUpload.SUPPORTED_FILE_TYPES
    with (supportedImageTypes ++ supportedPdfTypes ++ supportedTextTypes)%list.
  rewrite !includes_app. fold (hasTextExtension f).
  destruct (includes supportedImageTypes (File.type f)),
           (includes supportedPdfTypes (File.type f)),
           (includes supportedTextTypes (File.type f)); reflexivity.
Qed.

(** What the converter does with a file the gate accepts: no toast, and
    the block of the first matching variant, read through the accessor of
    that variant. *)
Lemma convert_supported (f : File.t) :
  UseFileUpload.isFileSupported f = true ->
  fileToContentBlock f =
  ([],
   if includes supportedImageTypes (File.type f)
   then let! data := fileToBase64 f in Resolved (imageBlock f data)
   else if includes supportedPdfTypes (File.type f)
   then let! data := fileToBase64 f in Resolved (documentBlock f data)
   else let! body := fileText f in Resolved (textBlock f body)).
Proof.
  intros Hs. unfold fileToContentBlock.
  rewrite same_gate, Hs. cbn [negb].
  rewrite gate_split in Hs.
  destruct (includes supportedImageTypes (File.type f)); [reflexivity|].
  destruct (includes supportedPdfTypes (File.type f)); [reflexivity|].
  change supportedTextExtensions with UseFileUpload.SUPPORTED_TEXT_EXTENSIONS.
  fold (hasTextExtension f).
  cbn [orb] in Hs. rewrite Hs. reflexivity.
Qed.

Lemma includes_pdf (t : string) :
  includes supportedPdfTypes t = true -> t = "application/pdf".
Proof.
  intros H. apply includes_spec in H. simpl in H. intuition.
Qed.

(** A supported file never raises a toast when its conversion starts. *)
Lemma startAll_supported (us : list File.t) :
  Forall (fun f => UseFileUpload.isFileSupported f = true) us ->
  UseFileUpload.startAll us = ([], map (fun f => snd (fileToContentBlock f)) us).
Proof.
  unfold UseFileUpload.startAll. intros H. f_equal.
  - induction H as [|f us Hf _ IH]; simpl; auto.
    now rewrite (convert_supported f Hf).
  - apply map_map.
Qed.

End GateFacts.

(* ================================================================== *)
(** ** The ingestion pipeline *)
(* ================================================================== *)

Module PipelineFacts.
Import JS JSFacts UseFileUpload Pipeline GateFacts PromiseAllFacts.

Lemma uniqueFiles_supported (cb : list ContentBlock) (files : list File.t) :
  Forall (fun f => isFileSupported f = true) (uniqueFiles cb files).
Proof.
  apply Forall_forall. intros f H.
  unfold uniqueFiles, validFiles in H.
  apply filter_In in H. destruct H as [H _].
  apply filter_In in H. tauto.
Qed.

Lemma In_uniqueFiles (cb : list ContentBlock) (files : list File.t)
    (f : File.t) :
  In f (uniqueFiles cb files) <->
  In f files /\ isFileSupported f = true /\ isDuplicate f cb = false.
Proof.
  unfold uniqueFiles, validFiles. rewrite !filter_In, negb_true_iff. tauto.
Qed.

Lemma uniqueFiles_app (cb : list ContentBlock) (l1 l2 : list File.t) :
  uniqueFiles cb (l1 ++ l2) = (uniqueFiles cb l1 ++ uniqueFiles cb l2)%list.
Proof. unfold uniqueFiles, validFiles. now rewrite !filter_app. Qed.

Lemma uniqueFiles_cons_unique (cb : list ContentBlock) (f : File.t)
    (l : list File.t) :
  isFileSupported f = true -> isDuplicate f cb = false ->
  uniqueFiles cb (f :: l) = f :: uniqueFiles cb l.
Proof.
  intros Hs Hd. unfold uniqueFiles, validFiles. simpl.
  rewrite Hs. simpl. now rewrite Hd.
Qed.

(** The read step of a call whose unique files are all supported. *)
Lemma startAll_unique (cb : list ContentBlock) (files : list File.t) :
  startAll (uniqueFiles cb files) = ([], map materialize (uniqueFiles cb files)).
Proof. apply startAll_supported, uniqueFiles_supported. Qed.

(** A supported file can only fail by its read. *)
Lemma materialize_supported (f : File.t) (e : Error) :
  isFileSupported f = true -> materialize f = Rejected e -> e = ReadError.
Proof.
  intros Hs. unfold materialize. rewrite (convert_supported f Hs).
  cbn [snd]. unfold MultimodalUtils.fileToBase64, MultimodalUtils.fileText.
  destruct (includes _ _); [|destruct (includes _ _)];
    [destruct (File.readAsDataURL f)|destruct (File.readAsDataURL f)
    |destruct (File.text f)]; cbn; congruence.
Qed.

Lemma awaitAll_resolved (order : list nat) (us : list File.t)
    (bs : list ContentBlock) :
  awaitAll order us = Some (Resolved bs) ->
  map materialize us = map Resolved bs.
Proof. intros H. exact (all_resolved _ _ _ H). Qed.

Lemma awaitAll_rejected (order : list nat) (us : list File.t) (e : Error) :
  awaitAll order us = Some (Rejected e) ->
  exists f, In f us /\ materialize f = Rejected e.
Proof.
  intros H. apply all_rejected in H. apply in_map_iff in H.
  destruct H as [f [H1 H2]]. eauto.
Qed.

Lemma awaitAll_settles (order : list nat) (us : list File.t) :
  complete order us -> awaitAll order us <> None.
Proof.
  intros H. apply all_settles. now rewrite length_map.
Qed.

(** One failed read keeps the combined promise from resolving. *)
Lemma awaitAll_failed (order : list nat) (us : list File.t) (f : File.t)
    (bs : list ContentBlock) :
  In f us -> readFails f -> awaitAll order us <> Some (Resolved bs).
Proof.
  intros Hin [e He] H. apply awaitAll_resolved in H.
  assert (Hm : In (materialize f) (map Resolved bs))
    by (rewrite <- H; now apply in_map).
  rewrite He in Hm. apply in_map_iff in Hm.
  destruct Hm as [b [Hb _]]. discriminate.
Qed.

(** When every read succeeds and has finished, the combined promise
    resolves with the blocks in the order of the files. *)
Lemma awaitAll_succeeds (order : list nat) (us : list File.t) :
  complete order us ->
  (forall f, In f us -> ~ readFails f) ->
  exists bs, awaitAll order us = Some (Resolved bs)
             /\ map materialize us = map Resolved bs.
Proof.
  intros Hc Hok.
  destruct (awaitAll order us) as [[bs|e]|] eqn:E.
  - exists bs. split; auto. now apply (awaitAll_resolved order).
  - apply awaitAll_rejected in E. destruct E as [f [Hin He]].
    exfalso. apply (Hok f Hin). now exists e.
  - exfalso. revert E. now apply awaitAll_settles.
Qed.

(** The inline predicate of [handlePaste] is the hook's. *)
Lemma paste_isDuplicate (cb : list ContentBlock) (f : File.t) :
  Paste.isDuplicate cb f = isDuplicate f cb.
Proof. reflexivity. Qed.

Lemma handleFileUpload_eq (order : list nat) (cb : list ContentBlock)
    (files : list File.t) :
  handleFileUpload order cb (Some files) =
  match uniqueFiles cb files with
  | [] => mkOutcome [[]] (partitionToasts invalidUploadToast cb files)
            false true Returned
  | _ :: _ => finish order (uniqueFiles cb files)
                (partitionToasts invalidUploadToast cb files) false true
  end.
Proof.
  unfold handleFileUpload.
  fold (validFiles files). fold (invalidFiles files).
  fold (duplicateFiles cb files). fold (uniqueFiles cb files).
  pose proof (startAll_unique cb files) as Hs.
  destruct (uniqueFiles cb files) as [|u us]; [reflexivity|].
  rewrite Hs. unfold finish, awaitAll, partitionToasts.
  rewrite !app_nil_r. reflexivity.
Qed.

Lemma handleWindowDrop_eq (order : list nat) (cb : list ContentBlock)
    (files : list File.t) (d : DragState) :
  handleWindowDrop order cb (Some files) d =
  (mkDrag 0 false,
   match uniqueFiles cb files with
   | [] => mkOutcome [[]] (partitionToasts invalidUploadToast cb files)
             true false Returned
   | _ :: _ => finish order (uniqueFiles cb files)
                 (partitionToasts invalidUploadToast cb files) true false
   end).
Proof.
  unfold handleWindowDrop.
  fold (validFiles files). fold (invalidFiles files).
  fold (duplicateFiles cb files). fold (uniqueFiles cb files).
  pose proof (startAll_unique cb files) as Hs.
  destruct (uniqueFiles cb files) as [|u us]; [reflexivity|].
  rewrite Hs. unfold finish, awaitAll, partitionToasts.
  rewrite !app_nil_r.
  destruct (PromiseAll.all order _) as [[bs|e]|]; reflexivity.
Qed.

Lemma handlePaste_eq (order : list nat) (cb : list ContentBlock)
    (items : list Item.t) :
  handlePaste order cb (Some items) =
  match pastedFiles items with
  | [] => mkOutcome [] [] false false Returned
  | _ :: _ =>
      match uniqueFiles cb (pastedFiles items) with
      | [] => mkOutcome []
                (partitionToasts invalidPasteToast cb (pastedFiles items))
                true false Returned
      | _ :: _ => finish order (uniqueFiles cb (pastedFiles items))
                    (partitionToasts invalidPasteToast cb (pastedFiles items))
                    true false
      end
  end.
Proof.
  unfold handlePaste.
  destruct (pastedFiles items) as [|p fs] eqn:Ep; [reflexivity|].
  fold (validFiles (p :: fs)). fold (invalidFiles (p :: fs)).
  change (filter (Paste.isDuplicate cb) (validFiles (p :: fs)))
    with (duplicateFiles cb (p :: fs)).
  change (filter (fun f => negb (Paste.isDuplicate cb f))
            (validFiles (p :: fs)))
    with (uniqueFiles cb (p :: fs)).
  pose proof (startAll_unique cb (p :: fs)) as Hs.
  destruct (uniqueFiles cb (p :: fs)) as [|u us]; [reflexivity|].
  rewrite Hs. unfold finish, awaitAll, partitionToasts.
  rewrite !app_nil_r. reflexivity.
Qed.

(** Every entry point either has no unique file, and then returns having
    appended nothing (or the empty array), or goes through [finish]. *)
Lemma ingest_cases (order : list nat) (cb : list ContentBlock) (c : Call) :
  let us := uniqueFiles cb (input c) in
  let o := ingest order cb c in
  (us = [] /\ completion o = Returned
   /\ (appended o = [] \/ appended o = [[]]))
  \/ (us <> [] /\ exists ts p cl, o = finish order us ts p cl).
Proof.
  destruct c as [files|files d|items]; cbn [input ingest].
  - rewrite handleFileUpload_eq.
    destruct (uniqueFiles cb files) as [|u us] eqn:Eu.
    + left. cbn. auto.
    + right. split; [discriminate|]. eauto.
  - rewrite handleWindowDrop_eq. cbn [snd].
    destruct (uniqueFiles cb files) as [|u us] eqn:Eu.
    + left. cbn. auto.
    + right. split; [discriminate|]. eauto.
  - rewrite handlePaste_eq.
    destruct (pastedFiles items) as [|p fs] eqn:Ep.
    + left. cbn. auto.
    + destruct (uniqueFiles cb (p :: fs)) as [|u us] eqn:Eu.
      * left. cbn. auto.
      * right. split; [discriminate|]. eauto.
Qed.

(** What [finish] appends. *)
Lemma finish_appended (order : list nat) (us : list File.t)
    (ts : list string) (p c : bool) :
  (appended (finish order us ts p c) = []
   /\ completion (finish order us ts p c) <> Returned
   /\ forall bs, awaitAll order us <> Some (Resolved bs))
  \/ (exists bs, appended (finish order us ts p c) = [bs]
                 /\ completion (finish order us ts p c) = Returned
                 /\ awaitAll order us = Some (Resolved bs)).
Proof.
  unfold finish. destruct (awaitAll order us) as [[bs|e]|].
  - right. exists bs. auto.
  - left. cbn. repeat split; discriminate.
  - left. cbn. repeat split; discriminate.
Qed.

End PipelineFacts.

(* ================================================================== *)
(** ** Scenarios *)
(* ================================================================== *)

Module Scenarios.
Import JS UseFileUpload Pipeline Samples.

(** A text file is ingested into an empty session, then offered again. *)
Example ingest_text_file :
  commit [] (handleFileUpload [0] [] (Some [c_txt]))
  = [TextBlock ("File: C.txt" ++ LF ++ LF ++ "hello")].
Proof. reflexivity. Qed.

Example ingest_text_file_again :
  let session := [textBlock c_txt "hello"] in
  let o := handleFileUpload [0] session (Some [c_txt]) in
  commit session o = session
  /\ toasts o = ["Duplicate file(s) detected: C.txt. Each file can only be uploaded once per message."].
Proof. split; reflexivity. Qed.

(** An archive is refused with the invalid-type message. *)
Example ingest_archive :
  let o := handleFileUpload [0] [] (Some [x_zip]) in
  commit [] o = [] /\ toasts o = [invalidUploadToast].
Proof. split; reflexivity. Qed.

(** Three files whose reads finish last-to-first. *)
Example ingest_three :
  commit [] (handleFileUpload [2; 1; 0] [] (Some [a_png; b_pdf; c_txt]))
  = [imageBlock a_png (Some "iVBORw0KGgo=");
     documentBlock b_pdf (Some "JVBERi0=");
     textBlock c_txt "hello"].
Proof. reflexivity. Qed.

(** [removeBlock] drops the element at [idx] and nothing else. *)
Lemma filterIndexFrom_out_of_range {A : Type} (l : list A) :
  forall i idx, i + length l <= idx ->
  filterIndexFrom i (fun j => negb (j =? idx)%nat) l = l.
Proof.
  induction l as [|x l IH]; intros i idx H; simpl in *; auto.
  destruct (Nat.eqb_spec i idx); [lia|]. simpl. f_equal.
  apply IH. lia.
Qed.

Lemma removeBlock_out_of_range (idx : nat) (prev : list ContentBlock) :
  length prev <= idx -> removeBlock idx prev = prev.
Proof. intros H. now apply filterIndexFrom_out_of_range. Qed.

Lemma removeBlock_first (b : ContentBlock) (prev : list ContentBlock) :
  removeBlock 0 (b :: prev) = prev.
Proof.
  unfold removeBlock. simpl.
  assert (H : forall (l : list ContentBlock) i,
            filterIndexFrom (S i) (fun j => negb (j =? 0)%nat) l = l)
    by (induction l as [|x l IH]; intros i; simpl; [|rewrite IH];
        reflexivity).
  apply H.
Qed.

End Scenarios.

(* ================================================================== *)
(** ** The claims *)
(* ================================================================== *)

Import JS JSFacts MultimodalUtils UseFileUpload Pipeline.
Import GateFacts PromiseAllFacts PipelineFacts Samples.

(** C1 (the code departs from the claim). A PDF named [scan.txt] is
    materialized as a Document block that stores its file name, and the
    Document rule matches that block; yet [isDuplicate], which looks at the
    name's extension before the media type, applies the Text rule and
    answers no: ingesting the same file again appends a second copy. *)
Theorem C1_pdf_named_like_text_is_not_deduplicated :
  let doc := documentBlock scan_txt (Some "JVBERi0=") in
  materialize scan_txt = Resolved doc
  /\ samePdf scan_txt doc = true
  /\ isDuplicate scan_txt [doc] = false
  /\ commit [doc] (handleFileUpload [0] [doc] (Some [scan_txt])) = [doc; doc].
Proof. cbv zeta. repeat split; vm_compute; reflexivity. Qed.

(** C2, as stated, fails: [setup.exe] with an empty media type ends with
    no allow-listed extension, yet the gate accepts it, it is not among the
    invalid files, and it is appended as a Text block. *)
Lemma C2_empty_type_is_accepted :
  File.type setup_exe = ""
  /\ hasTextExtension setup_exe = false
  /\ UseFileUpload.isFileSupported setup_exe = true
  /\ invalidFiles [setup_exe] = []
  /\ commit [] (handleFileUpload [0] [] (Some [setup_exe]))
     = [textBlock setup_exe "MZ"].
Proof. repeat split; vm_compute; reflexivity. Qed.

(** C2, amended. A file whose declared media type is the empty string or
    [application/octet-stream] is accepted whatever its name ends with: the
    gate counts it among the valid files and never among the invalid ones,
    and it is materialized, without a toast, as the Text block
    ["File: " + name + "\n\n" + content] (or fails with the read). *)
Theorem C2_generic_types_are_accepted_as_text (f : File.t) :
  File.type f = "" \/ File.type f = "application/octet-stream" ->
  UseFileUpload.isFileSupported f = true
  /\ (forall files, In f files ->
        In f (validFiles files) /\ ~ In f (invalidFiles files))
  /\ fileToContentBlock f =
     ([], match File.text f with
          | Some body => Resolved (textBlock f body)
          | None => Rejected ReadError
          end).
Proof.
  intros Ht.
  assert (Hs : UseFileUpload.isFileSupported f = true).
  { unfold UseFileUpload.isFileSupported.
    destruct Ht as [-> | ->]; reflexivity. }
  split; [exact Hs|]. split.
  - intros files Hin. unfold validFiles, invalidFiles. rewrite !filter_In.
    rewrite Hs. split; [auto|]. intros [_ H]; discriminate.
  - rewrite (convert_supported f Hs). unfold fileText.
    destruct Ht as [-> | ->]; cbn; destruct (File.text f); reflexivity.
Qed.

(** The amended C2 at [setup.exe]. *)
Lemma C2_generic_types_witness :
  UseFileUpload.isFileSupported setup_exe = true
  /\ fileToContentBlock setup_exe = ([], Resolved (textBlock setup_exe "MZ")).
Proof.
  destruct (C2_generic_types_are_accepted_as_text setup_exe
              (or_introl eq_refl)) as [H1 [_ H3]].
  split; [exact H1 | exact H3].
Defined.

(** C10. For a file the hook's gate accepts, the two rejection branches of
    [fileToContentBlock] are not taken: the converter's allow-lists are the
    gate's, no toast is raised, the promise never rejects as unsupported,
    and when the file's bytes can be read it resolves with an Image, a
    Document or a Text block made from the file. A rejection is a failed
    read. *)
Theorem C10_gate_makes_rejection_unreachable (f : File.t) :
  UseFileUpload.isFileSupported f = true ->
  supportedFileTypes = SUPPORTED_FILE_TYPES
  /\ supportedTextExtensions = SUPPORTED_TEXT_EXTENSIONS
  /\ fst (fileToContentBlock f) = []
  /\ (forall mime, materialize f <> Rejected (UnsupportedFileType mime))
  /\ (readable f -> exists b, materialize f = Resolved b /\ blockOf f b)
  /\ (forall e, materialize f = Rejected e -> e = ReadError /\ ~ readable f).
Proof.
  intros Hs. split; [reflexivity|]. split; [reflexivity|].
  unfold materialize. rewrite (convert_supported f Hs). cbn [fst snd].
  split; [reflexivity|].
  unfold fileToBase64, fileText, readable, blockOf.
  destruct (includes supportedImageTypes (File.type f)) eqn:Ei;
    [|destruct (includes supportedPdfTypes (File.type f)) eqn:Ep].
  - apply includes_spec in Ei.
    destruct (File.readAsDataURL f) as [r|]; cbn.
    + repeat split; try discriminate. intros _. eexists. split; eauto.
    + repeat split; try congruence; tauto.
  - apply includes_pdf in Ep.
    destruct (File.readAsDataURL f) as [r|]; cbn.
    + repeat split; try discriminate. intros _. eexists. split; eauto.
    + repeat split; try congruence; tauto.
  - destruct (File.text f) as [body|]; cbn.
    + repeat split; try discriminate. intros _. eexists. split; eauto.
    + repeat split; try congruence; tauto.
Qed.

(** C10 at [A.png], which the gate accepts and whose bytes can be read. *)
Lemma C10_gate_witness :
  fst (fileToContentBlock a_png) = []
  /\ exists b, materialize a_png = Resolved b /\ blockOf a_png b.
Proof.
  destruct (C10_gate_makes_rejection_unreachable a_png eq_refl)
    as [_ [_ [H1 [_ [H2 _]]]]].
  split; [exact H1|]. apply H2. split; discriminate.
Defined.

(** C3. When the materialization of a unique file of the batch fails, the
    call appends nothing, at any of the three entry points: no block of the
    batch is appended, whatever the sibling reads delivered and in whatever
    order they finished, and the collection is what it was before the
    call. *)
Theorem C3_failed_read_appends_nothing
    (order : list nat) (contentBlocks prev : list ContentBlock)
    (c : Call) (f : File.t) :
  In f (uniqueFiles contentBlocks (input c)) ->
  readFails f ->
  appendsNothing prev order (uniqueFiles contentBlocks (input c))
    (ingest order contentBlocks c).
Proof.
  intros Hin Hfail.
  destruct (ingest_cases order contentBlocks c)
    as [[Hnil _] | [_ [ts [p [cl ->]]]]].
  - rewrite Hnil in Hin. contradiction.
  - remember (uniqueFiles contentBlocks (input c)) as us eqn:Eus.
    unfold appendsNothing, commit, finish.
    pose proof (awaitAll_failed order us f) as Hno.
    destruct (awaitAll order us) as [[bs|e]|] eqn:E; cbn.
    + exfalso. exact (Hno bs Hin Hfail eq_refl).
    + repeat split; try discriminate. intros _.
      apply awaitAll_rejected in E. destruct E as [g [Hg He]].
      pose proof (uniqueFiles_supported contentBlocks (input c)) as Hsup.
      rewrite Forall_forall in Hsup. rewrite <- Eus in Hsup.
      now rewrite (materialize_supported g e (Hsup g Hg) He).
    + repeat split; try discriminate. intros Hc.
      exfalso. revert E. now apply awaitAll_settles.
Qed.

(** C3 at a batch of three images and texts whose second read fails after
    the third has succeeded. *)
Lemma C3_failed_read_witness :
  appendsNothing [TextBlock "seed"] [2; 0; 1]
    (uniqueFiles [TextBlock "seed"] [a_png; broken_png; c_txt])
    (handleFileUpload [2; 0; 1] [TextBlock "seed"]
       (Some [a_png; broken_png; c_txt])).
Proof.
  apply (C3_failed_read_appends_nothing [2; 0; 1] [TextBlock "seed"]
           [TextBlock "seed"] (Selection [a_png; broken_png; c_txt])
           broken_png).
  - vm_compute. right; left; reflexivity.
  - exists ReadError. reflexivity.
Defined.

(** C4. Whatever window-level drag events arrive, in whatever order, the
    counter is not negative after any of them: each handler keeps a
    non-negative counter non-negative, a qualifying leave decrements and
    clamps at zero, and two enters followed by three leaves end with the
    counter at zero and the hover flag off. *)
Theorem C4_drag_counter_never_negative :
  (forall events : list WindowEvent,
     (0 <= dragCounter (run initialDrag events))%Z)
  /\ (forall d e, (0 <= dragCounter d)%Z ->
                  (0 <= dragCounter (dispatch d e))%Z)
  /\ (forall d types, hasFiles types = true ->
        dragCounter (handleWindowDragLeave types d)
        = Z.max 0 (dragCounter d - 1))
  /\ run initialDrag
       [dragenter Files; dragenter Files;
        dragleave Files; dragleave Files; dragleave Files]
     = mkDrag 0 false.
Proof.
  assert (Hstep : forall d e, (0 <= dragCounter d)%Z ->
                              (0 <= dragCounter (dispatch d e))%Z).
  { intros [c h] e Hc. cbn [dragCounter] in Hc.
    destruct e as [types|types|order cb dt|]; cbn [dispatch].
    - unfold handleWindowDragEnter. destruct (hasFiles types); cbn; lia.
    - unfold handleWindowDragLeave. destruct (hasFiles types); cbn; [|lia].
      destruct (Z.leb_spec (c - 1) 0); cbn; lia.
    - destruct dt as [files|]; [rewrite handleWindowDrop_eq|]; cbn; lia.
    - cbn; lia. }
  split; [|split; [exact Hstep|split]].
  - intros events. unfold run.
    assert (H0 : (0 <= dragCounter initialDrag)%Z) by (cbn; lia).
    revert H0. generalize initialDrag.
    induction events as [|e events IH]; intros d Hd; cbn; auto.
  - intros [c h] types Ht. unfold handleWindowDragLeave. rewrite Ht.
    cbn [dragCounter]. destruct (Z.leb_spec (c - 1) 0); cbn; lia.
  - reflexivity.
Qed.

(** C5. For a file whose lower-cased name ends with an allow-listed text
    extension, [isDuplicate] answers yes exactly when some Text block of
    the collection starts with ["File: " + file.name + "\n\n"], the name
    taken as it is written. So against the Text block of [notes.txt], a
    file named [notes.txt] is a duplicate and one named [Notes.txt] is
    not, whatever their media type and content. *)
Theorem C5_text_rule_is_case_sensitive :
  (forall (f : File.t) (blocks : list ContentBlock),
     (exists ext pre, In ext SUPPORTED_TEXT_EXTENSIONS
                      /\ toLowerCase (File.name f) = pre ++ ext) ->
     (isDuplicate f blocks = true <->
      exists rest,
        In (TextBlock ("File: " ++ File.name f ++ LF ++ LF ++ rest)) blocks))
  /\ (forall (body ty : string) (r t : option string)
             (before after : list ContentBlock),
        isDuplicate (File.mk "notes.txt" ty r t)
          (before ++ TextBlock ("File: notes.txt" ++ LF ++ LF ++ body)
                  :: after)%list = true)
  /\ (forall (body ty : string) (r t : option string),
        isDuplicate (File.mk "Notes.txt" ty r t)
          [TextBlock ("File: notes.txt" ++ LF ++ LF ++ body)] = false).
Proof.
  assert (Hrule : forall f blocks,
            hasTextExtension f = true ->
            (isDuplicate f blocks = true <->
             exists rest,
               In (TextBlock ("File: " ++ File.name f ++ LF ++ LF ++ rest))
                  blocks)).
  { intros f blocks Hext. unfold isDuplicate.
    fold (hasTextExtension f). rewrite Hext.
    assert (Hassoc : forall rest,
              ("File: " ++ File.name f ++ LF ++ LF) ++ rest
              = "File: " ++ File.name f ++ LF ++ LF ++ rest)
      by (intros rest; now rewrite !append_assoc).
    unfold JS.some. rewrite existsb_exists. split.
    - intros [b [Hin Hb]]. destruct b as [| text]; [discriminate|].
      unfold sameTextFile in Hb.
      apply startsWith_spec in Hb. destruct Hb as [rest ->].
      exists rest. now rewrite <- Hassoc.
    - intros [rest Hin]. eexists. split; [exact Hin|].
      unfold sameTextFile. apply startsWith_spec. exists rest.
      now rewrite Hassoc. }
  split; [|split].
  - intros f blocks Hext. apply Hrule. now apply hasTextExtension_spec.
  - intros body ty r t before after.
    apply (Hrule (File.mk "notes.txt" ty r t)); [reflexivity|].
    exists body. apply in_elt.
  - intros body ty r t. reflexivity.
Qed.

(** C5 at [notes.txt] and [Notes.txt]. *)
Lemma C5_text_rule_witness :
  isDuplicate notes_txt [textBlock notes_txt "old body"] = true
  /\ isDuplicate Notes_txt [textBlock notes_txt "old body"] = false.
Proof.
  destruct C5_text_rule_is_case_sensitive as [H1 [_ H3]].
  split.
  - apply (H1 notes_txt).
    + exists ".txt", "notes". split; [left; reflexivity | reflexivity].
    + exists "old body". left. reflexivity.
  - exact (H3 "old body" "text/plain" (File.readAsDataURL Notes_txt)
              (File.text Notes_txt)).
Defined.

Lemma blocksOf_map (us : list File.t) (bs : list ContentBlock) :
  map materialize us = map Resolved bs <-> blocksOf us bs.
Proof.
  unfold blocksOf. revert bs; induction us as [|f us IH]; intros [|b bs];
    simpl; split; intros H; try discriminate; try (now inversion H).
  - injection H as H1 H2. constructor; [exact H1 | now apply IH].
  - inversion H; subst. f_equal; [assumption | now apply IH].
Qed.

Lemma blocksOf_unique (us : list File.t) (bs bs' : list ContentBlock) :
  blocksOf us bs -> blocksOf us bs' -> bs = bs'.
Proof.
  intros H H'. apply blocksOf_map in H. apply blocksOf_map in H'.
  apply map_Resolved_inj. congruence.
Qed.

Lemma blocksOf_split (us1 us2 us3 : list File.t) (f1 f2 : File.t)
    (bs : list ContentBlock) :
  blocksOf (us1 ++ f1 :: us2 ++ f2 :: us3)%list bs ->
  exists B1 b1 B2 b2 B3,
    bs = (B1 ++ b1 :: B2 ++ b2 :: B3)%list
    /\ materialize f1 = Resolved b1 /\ materialize f2 = Resolved b2.
Proof.
  unfold blocksOf. intros H.
  apply Forall2_app_inv_l in H. destruct H as [B1 [R1 [_ [H ->]]]].
  inversion H as [|? b1 ? R2 Hb1 H2]; subst.
  apply Forall2_app_inv_l in H2. destruct H2 as [B2 [R3 [_ [H3 ->]]]].
  inversion H3 as [|? b2 ? B3 Hb2 _]; subst.
  now exists B1, b1, B2, b2, B3.
Qed.

(** The collection after a call that went through [finish]. *)
Lemma commit_finish (prev : list ContentBlock) (order : list nat)
    (us : list File.t) (ts : list string) (p c : bool) :
  commit prev (finish order us ts p c) =
  match awaitAll order us with
  | Some (Resolved bs) => (prev ++ bs)%list
  | _ => prev
  end.
Proof.
  unfold commit, finish.
  destruct (awaitAll order us) as [[bs|e]|]; reflexivity.
Qed.

(** C6. Within one call the duplicate predicate is asked about every file
    against the same collection, the one the handler saw when it was
    called: two supported files of one batch that carry the same name, and
    that match no block already there, both stay among the unique files
    (neither is among the duplicates), and their two blocks are both
    appended once the batch has materialized. *)
Theorem C6_same_name_files_of_one_batch_are_both_unique
    (order : list nat) (contentBlocks prev : list ContentBlock) (c : Call)
    (l1 l2 l3 : list File.t) (f1 f2 : File.t) :
  input c = (l1 ++ f1 :: l2 ++ f2 :: l3)%list ->
  File.name f1 = File.name f2 ->
  UseFileUpload.isFileSupported f1 = true ->
  UseFileUpload.isFileSupported f2 = true ->
  isDuplicate f1 contentBlocks = false ->
  isDuplicate f2 contentBlocks = false ->
  let us := uniqueFiles contentBlocks (input c) in
  let o := ingest order contentBlocks c in
  us = (uniqueFiles contentBlocks l1 ++ f1
          :: uniqueFiles contentBlocks l2 ++ f2
          :: uniqueFiles contentBlocks l3)%list
  /\ ~ In f1 (duplicateFiles contentBlocks (input c))
  /\ ~ In f2 (duplicateFiles contentBlocks (input c))
  /\ (forall bs, appended o = [bs] ->
        exists B1 b1 B2 b2 B3,
          bs = (B1 ++ b1 :: B2 ++ b2 :: B3)%list
          /\ materialize f1 = Resolved b1 /\ materialize f2 = Resolved b2
          /\ commit prev o = (prev ++ B1 ++ b1 :: B2 ++ b2 :: B3)%list)
  /\ (complete order us -> (forall f, In f us -> ~ readFails f) ->
        exists bs, appended o = [bs]).
Proof.
  intros Hin Hname Hs1 Hs2 Hd1 Hd2. cbv zeta.
  assert (Hus : uniqueFiles contentBlocks (input c)
                = (uniqueFiles contentBlocks l1 ++ f1
                     :: uniqueFiles contentBlocks l2 ++ f2
                     :: uniqueFiles contentBlocks l3)%list).
  { rewrite Hin, uniqueFiles_app, uniqueFiles_cons_unique by assumption.
    now rewrite uniqueFiles_app, uniqueFiles_cons_unique by assumption. }
  split; [exact Hus|].
  assert (Hnd : forall f, isDuplicate f contentBlocks = false ->
                          ~ In f (duplicateFiles contentBlocks (input c))).
  { intros f Hd H. apply filter_In in H. destruct H as [_ H]. congruence. }
  split; [now apply Hnd|]. split; [now apply Hnd|].
  destruct (ingest_cases order contentBlocks c)
    as [[Hnil _] | [_ [ts [p [cl Ho]]]]].
  { rewrite Hus in Hnil. now destruct (uniqueFiles contentBlocks l1). }
  rewrite Ho. split.
  - intros bs Hbs. rewrite commit_finish. unfold finish in Hbs.
    destruct (awaitAll order (uniqueFiles contentBlocks (input c)))
      as [[bs'|e]|] eqn:E; try discriminate.
    injection Hbs as ->. apply awaitAll_resolved, blocksOf_map in E.
    rewrite Hus in E. apply blocksOf_split in E.
    destruct E as [B1 [b1 [B2 [b2 [B3 [-> [H1 H2]]]]]]].
    now exists B1, b1, B2, b2, B3.
  - intros Hc Hok.
    destruct (awaitAll_succeeds order _ Hc Hok) as [bs [E _]].
    exists bs. unfold finish. now rewrite E.
Qed.

(** C6 at a batch that holds [notes.txt] twice. *)
Lemma C6_same_name_witness :
  exists bs,
    appended (handleFileUpload [1; 0] [] (Some [notes_txt; notes_txt]))
    = [bs].
Proof.
  destruct (C6_same_name_files_of_one_batch_are_both_unique
              [1; 0] [] [] (Selection [notes_txt; notes_txt])
              [] [] [] notes_txt notes_txt
              eq_refl eq_refl eq_refl eq_refl eq_refl eq_refl)
    as [_ [_ [_ [_ H]]]].
  apply H.
  - intros i Hi. vm_compute in Hi.
    destruct i as [|[|i]]; [right; left|left|exfalso; lia]; reflexivity.
  - intros f Hf [e He]. vm_compute in Hf.
    destruct Hf as [<-|[<-|[]]]; discriminate.
Defined.

(** C7. At every entry point a call makes at most one [setContentBlocks]
    call, which appends to the end of the collection; the array it appends
    holds, position by position, the blocks of the unique files in the
    order of the input. When all reads succeed the blocks are appended as
    soon as the reads have finished, and the result is the same for every
    order in which they finish. *)
Theorem C7_blocks_are_appended_in_input_order
    (order : list nat) (contentBlocks prev : list ContentBlock) (c : Call) :
  let us := uniqueFiles contentBlocks (input c) in
  let o := ingest order contentBlocks c in
  length (appended o) <= 1
  /\ commit prev o = (prev ++ concat (appended o))%list
  /\ (forall bs, In bs (appended o) -> blocksOf us bs)
  /\ (complete order us -> (forall f, In f us -> ~ readFails f) ->
      exists bs, blocksOf us bs /\ commit prev o = (prev ++ bs)%list)
  /\ (forall order', complete order us -> complete order' us ->
        commit prev (ingest order' contentBlocks c) = commit prev o).
Proof.
  cbv zeta.
  assert (Hnil : forall o, appended o = [] \/ appended o = [[]] ->
                           commit prev o = prev).
  { intros o [H|H]; unfold commit; rewrite H; cbn; auto using app_nil_r. }
  destruct (ingest_cases order contentBlocks c)
    as [[Hus [_ Ha]] | [Hne [ts [p [cl Ho]]]]].
  - (* no unique file *)
    rewrite Hus. repeat split.
    + destruct Ha as [-> | ->]; cbn; lia.
    + rewrite (Hnil _ Ha). destruct Ha as [-> | ->]; cbn;
        now rewrite ?app_nil_r.
    + intros bs Hbs.
      destruct Ha as [Ha | Ha]; rewrite Ha in Hbs; cbn in Hbs;
        [contradiction|]. destruct Hbs as [<-|[]]. constructor.
    + intros _ _. exists []. split; [constructor|].
      now rewrite (Hnil _ Ha), app_nil_r.
    + intros order' _ _. rewrite (Hnil _ Ha).
      destruct (ingest_cases order' contentBlocks c)
        as [[_ [_ Ha']] | [Hne _]]; [now apply Hnil | congruence].
  - (* the batch is read *)
    rewrite Ho, commit_finish. unfold finish.
    remember (uniqueFiles contentBlocks (input c)) as us eqn:Eus.
    repeat split.
    + destruct (awaitAll order us) as [[bs|e]|]; cbn; lia.
    + destruct (awaitAll order us) as [[bs|e]|]; cbn;
        now rewrite ?app_nil_r.
    + intros bs Hbs.
      destruct (awaitAll order us) as [[bs'|e]|] eqn:E; cbn in Hbs;
        try contradiction.
      destruct Hbs as [<-|[]]. now apply blocksOf_map, (awaitAll_resolved order).
    + intros Hc Hok. destruct (awaitAll_succeeds order us Hc Hok)
        as [bs [E Hbs]].
      exists bs. rewrite E. split; [now apply blocksOf_map | reflexivity].
    + intros order' Hc Hc'.
      destruct (ingest_cases order' contentBlocks c)
        as [[Hus _] | [_ [ts' [p' [cl' Ho']]]]]; [congruence|].
      rewrite Ho', <- Eus, commit_finish.
      pose proof (awaitAll_settles order us Hc) as Hs.
      pose proof (awaitAll_settles order' us Hc') as Hs'.
      destruct (awaitAll order us) as [[bs|e]|] eqn:E;
        destruct (awaitAll order' us) as [[bs'|e']|] eqn:E';
        try congruence.
      * apply awaitAll_resolved in E, E'. f_equal.
        apply map_Resolved_inj. congruence.
      * exfalso. apply awaitAll_rejected in E'. destruct E' as [f [Hf He]].
        apply (awaitAll_failed order us f bs Hf); [now exists e' | exact E].
      * exfalso. apply awaitAll_rejected in E. destruct E as [f [Hf He]].
        apply (awaitAll_failed order' us f bs' Hf); [now exists e | exact E'].
Qed.

(** C7 at [A.png; B.pdf; C.txt], the text read finishing first. *)
Lemma C7_input_order_witness :
  exists bs,
    blocksOf [a_png; b_pdf; c_txt] bs
    /\ commit [TextBlock "seed"]
         (handleFileUpload [2; 0; 1] [TextBlock "seed"]
            (Some [a_png; b_pdf; c_txt]))
       = (TextBlock "seed" :: bs).
Proof.
  destruct (C7_blocks_are_appended_in_input_order [2; 0; 1]
              [TextBlock "seed"] [TextBlock "seed"]
              (Selection [a_png; b_pdf; c_txt]))
    as [_ [_ [_ [H _]]]].
  apply H.
  - intros i Hi. vm_compute in Hi.
    destruct i as [|[|[|i]]];
      [right; left|right; right; left|left|exfalso; lia]; reflexivity.
  - intros f Hf [e He]. vm_compute in Hf.
    destruct Hf as [<-|[<-|[<-|[]]]]; discriminate.
Defined.

(** C8, as stated, fails: a payload whose only item is of kind ["file"]
    but hands over no file leaves the default paste alone. *)
Lemma C8_file_item_without_a_file_is_ignored :
  Item.kind (Item.mk "file" None) = "file"
  /\ handlePaste [0] [] (Some [Item.mk "file" None])
     = mkOutcome [] [] false false Returned.
Proof. split; reflexivity. Qed.

(** C8, amended. [handlePaste] looks at the files it obtains from the
    items of kind ["file"]. When it obtains none (no such item, or only
    items whose [getAsFile()] is null) it returns at once: default paste
    is not suppressed, no [setContentBlocks] call is made and no toast is
    raised. When it obtains at least one, it suppresses default paste and
    treats the files as the picker and the drop handler treat theirs: the
    same partition toasts but for the wording of the invalid-type message,
    the same completion and the same collection afterwards. *)
Theorem C8_paste_acts_on_the_files_it_obtains
    (order : list nat) (contentBlocks : list ContentBlock)
    (items : list Item.t) :
  let files := pastedFiles items in
  let p := handlePaste order contentBlocks (Some items) in
  ((forall it, In it items -> Item.kind it <> "file") -> files = [])
  /\ (files = [] -> p = mkOutcome [] [] false false Returned)
  /\ (files <> [] ->
      defaultPrevented p = true
      /\ toasts p = partitionToasts invalidPasteToast contentBlocks files
      /\ forall o,
           o = handleFileUpload order contentBlocks (Some files)
           \/ (exists d, o = snd (handleWindowDrop order contentBlocks
                                    (Some files) d)) ->
           toasts o = partitionToasts invalidUploadToast contentBlocks files
           /\ completion p = completion o
           /\ forall prev, commit prev p = commit prev o).
Proof.
  cbv zeta. split; [|split].
  - induction items as [|it items IH]; intros H; cbn; auto.
    destruct (String.eqb_spec (Item.kind it) "file") as [E|_].
    + exfalso. apply (H it); [now left | exact E].
    + apply IH. intros it' Hin. apply H. now right.
  - intros E. rewrite handlePaste_eq, E. reflexivity.
  - intros Hne. rewrite handlePaste_eq.
    destruct (pastedFiles items) as [|f fs] eqn:Ep; [congruence|].
    assert (Hfin : forall ts pr cl,
              toasts (finish order (uniqueFiles contentBlocks (f :: fs))
                        ts pr cl) = ts
              /\ defaultPrevented
                   (finish order (uniqueFiles contentBlocks (f :: fs))
                      ts pr cl) = pr).
    { intros ts pr cl. unfold finish.
      destruct (awaitAll _ _) as [[bs|e]|]; auto. }
    assert (Hsame : forall o,
              o = handleFileUpload order contentBlocks (Some (f :: fs))
              \/ (exists d, o = snd (handleWindowDrop order contentBlocks
                                       (Some (f :: fs)) d)) ->
              exists pr cl,
                o = match uniqueFiles contentBlocks (f :: fs) with
                    | [] => mkOutcome [[]]
                              (partitionToasts invalidUploadToast
                                 contentBlocks (f :: fs)) pr cl Returned
                    | _ :: _ =>
                        finish order (uniqueFiles contentBlocks (f :: fs))
                          (partitionToasts invalidUploadToast
                             contentBlocks (f :: fs)) pr cl
                    end).
    { intros o [-> | [d ->]].
      - rewrite handleFileUpload_eq.
        destruct (uniqueFiles _ _); eauto.
      - rewrite handleWindowDrop_eq. cbn [snd].
        destruct (uniqueFiles _ _); eauto. }
    destruct (uniqueFiles contentBlocks (f :: fs)) as [|u us] eqn:Eu.
    + split; [reflexivity|]. split; [reflexivity|].
      intros o H. destruct (Hsame o H) as [pr [cl ->]].
      repeat split. intros prev. unfold commit. cbn.
      now rewrite app_nil_r.
    + rewrite <- Eu in *.
      split; [apply Hfin|]. split; [apply Hfin|].
      intros o H. destruct (Hsame o H) as [pr [cl ->]].
      split; [apply Hfin|]. split.
      * unfold finish. destruct (awaitAll _ _) as [[bs|e]|]; reflexivity.
      * intros prev. now rewrite !commit_finish.
Qed.

(** The amended C8 at a payload of one string item and one image. *)
Lemma C8_paste_witness :
  defaultPrevented
    (handlePaste [0] [] (Some [Item.mk "string" None;
                               Item.mk "file" (Some a_png)])) = true.
Proof.
  destruct (C8_paste_acts_on_the_files_it_obtains [0] []
              [Item.mk "string" None; Item.mk "file" (Some a_png)])
    as [_ [_ H]].
  apply H. discriminate.
Defined.

(** C9. The [isDuplicate] that [handlePaste] declares inline answers, for
    every file and every collection, what the hook-level [isDuplicate]
    answers on that collection; so paste splits its valid files into
    duplicates and unique files exactly as selection and drop do. *)
Theorem C9_paste_predicate_is_the_hook_predicate
    (f : File.t) (contentBlocks : list ContentBlock) (files : list File.t) :
  Paste.isDuplicate contentBlocks f = isDuplicate f contentBlocks
  /\ filter (Paste.isDuplicate contentBlocks) (validFiles files)
     = duplicateFiles contentBlocks files
  /\ filter (fun g => negb (Paste.isDuplicate contentBlocks g))
       (validFiles files)
     = uniqueFiles contentBlocks files.
Proof.
  assert (H : forall g, Paste.isDuplicate contentBlocks g
                        = isDuplicate g contentBlocks).
  { intros g. unfold Paste.isDuplicate, isDuplicate.
    destruct (JS.some _ SUPPORTED_TEXT_EXTENSIONS); [reflexivity|].
    destruct (String.eqb _ _); [reflexivity|].
    destruct (startsWith _ _); reflexivity. }
  split; [apply H|]. split.
  - unfold duplicateFiles. apply filter_ext. exact H.
  - unfold uniqueFiles. apply filter_ext. intros g. now rewrite H.
Qed.

(* ================================================================== *)
(** * Further properties of the hook *)
(* ================================================================== *)

Import Vocabulary.

(** ** [removeBlock] *)

Lemma filterIndexFrom_above (m : list ContentBlock) : forall a c,
  c < a -> filterIndexFrom a (fun j => negb (j =? c)%nat) m = m.
Proof.
  induction m as [|z m IH]; intros a c Hc; simpl; auto.
  destruct (Nat.eqb_spec a c); [lia|]. simpl. f_equal. apply IH. lia.
Qed.

Lemma filterIndexFrom_drops (l : list ContentBlock) : forall i k,
  filterIndexFrom i (fun j => negb (j =? i + k)%nat) l
  = (firstn k l ++ skipn (S k) l)%list.
Proof.
  induction l as [|x l IH]; intros i k; simpl.
  - now destruct k.
  - destruct k as [|k].
    + rewrite Nat.add_0_r, Nat.eqb_refl. simpl.
      apply filterIndexFrom_above. lia.
    + destruct (Nat.eqb_spec i (i + S k)); [lia|]. simpl. f_equal.
      replace (i + S k) with (S i + k) by lia. apply IH.
Qed.

(** X1. [removeBlock idx] drops the block at position [idx] and keeps every
    other block in place and in order; an index past the end changes
    nothing, and an index within the collection makes it one shorter. *)
Theorem X1_removeBlock_drops_exactly_that_block
    (idx : nat) (prev : list ContentBlock) :
  removeBlock idx prev = (firstn idx prev ++ skipn (S idx) prev)%list
  /\ (length prev <= idx -> removeBlock idx prev = prev)
  /\ (idx < length prev ->
      S (length (removeBlock idx prev)) = length prev).
Proof.
  assert (H : removeBlock idx prev
              = (firstn idx prev ++ skipn (S idx) prev)%list)
    by (unfold removeBlock; apply (filterIndexFrom_drops prev 0 idx)).
  split; [exact H|]. rewrite H. split.
  - intros Hle. rewrite firstn_all2 by exact Hle.
    rewrite skipn_all2 by lia. apply app_nil_r.
  - intros Hlt. rewrite length_app, length_firstn, length_skipn. lia.
Qed.

Lemma X1_removeBlock_witness :
  removeBlock 5 [TextBlock "a"; TextBlock "b"]
  = [TextBlock "a"; TextBlock "b"]
  /\ S (length (removeBlock 0 [TextBlock "a"; TextBlock "b"])) = 2.
Proof.
  destruct (X1_removeBlock_drops_exactly_that_block 5
              [TextBlock "a"; TextBlock "b"]) as [_ [H _]].
  destruct (X1_removeBlock_drops_exactly_that_block 0
              [TextBlock "a"; TextBlock "b"]) as [_ [_ H']].
  split; [apply H; simpl; lia | apply H'; simpl; lia].
Defined.

(** ** Deduplication against what was ingested *)

Lemma image_type_prefix (t : string) :
  includes supportedImageTypes t = true ->
  startsWith t "image/" = true /\ String.eqb t "application/pdf" = false.
Proof.
  intros H. apply includes_spec in H. simpl in H.
  destruct H as [<-|[<-|[<-|[<-|[]]]]]; split; reflexivity.
Qed.

Lemma text_type_not_binary (t : string) :
  includes supportedTextTypes t = true ->
  startsWith t "image/" = false /\ String.eqb t "application/pdf" = false
  /\ includes supportedImageTypes t = false
  /\ includes supportedPdfTypes t = false.
Proof.
  intros H. apply includes_spec in H. simpl in H.
  repeat (destruct H as [<-|H]; [repeat split; reflexivity|]).
  contradiction.
Qed.

Lemma sameImage_own (f : File.t) (data : option string) :
  sameImage f (imageBlock f data) = true.
Proof.
  unfold sameImage, imageBlock, strictEq, metadata_name.
  cbn [isSome Metadata.name andb]. now rewrite !String.eqb_refl.
Qed.

Lemma samePdf_own (f : File.t) (data : option string) :
  samePdf f (documentBlock f data) = true.
Proof.
  unfold samePdf, documentBlock, strictEq, metadata_filename.
  cbn [isSome Metadata.filename andb]. now rewrite !String.eqb_refl.
Qed.

Lemma sameTextFile_own (f : File.t) (body : string) :
  sameTextFile f (textBlock f body) = true.
Proof.
  unfold sameTextFile, textBlock. apply startsWith_spec.
  exists body. now rewrite !append_assoc.
Qed.

Lemma isDuplicate_of_own_block (f : File.t) (b : ContentBlock)
    (pre post : list ContentBlock) :
  UseFileUpload.isFileSupported f = true ->
  materialize f = Resolved b ->
  passesAgree f ->
  isDuplicate f (pre ++ b :: post) = true.
Proof.
  intros Hs Hb Hag. unfold passesAgree in Hag.
  unfold materialize in Hb. rewrite (convert_supported f Hs) in Hb.
  cbn [snd] in Hb. unfold isDuplicate. fold (hasTextExtension f).
  rewrite Hag. unfold JS.some. rewrite !existsb_app. cbn [existsb].
  unfold fileToBase64, fileText in Hb.
  destruct (includes supportedImageTypes (File.type f)) eqn:Ei;
    [|destruct (includes supportedPdfTypes (File.type f)) eqn:Ep];
    cbn [orb negb].
  - destruct (image_type_prefix _ Ei) as [Hp Hn]. rewrite Hn, Hp.
    destruct (File.readAsDataURL f); cbn [await] in Hb; [|discriminate].
    injection Hb as <-. rewrite sameImage_own. cbn [orb].
    now rewrite orb_true_r.
  - apply includes_pdf in Ep. rewrite Ep at 1. rewrite String.eqb_refl.
    destruct (File.readAsDataURL f); cbn [await] in Hb; [|discriminate].
    injection Hb as <-. rewrite samePdf_own. cbn [orb].
    now rewrite orb_true_r.
  - destruct (File.text f) as [body|]; cbn [await] in Hb; [|discriminate].
    injection Hb as <-. rewrite sameTextFile_own. cbn [orb].
    now rewrite orb_true_r.
Qed.

Lemma toasts_finish (order : list nat) (us : list File.t)
    (ts : list string) (p c : bool) :
  toasts (finish order us ts p c) = ts.
Proof. unfold finish. destruct (awaitAll order us) as [[bs|e]|]; auto. Qed.

Lemma toasts_ingest (order : list nat) (cb : list ContentBlock) (c : Call) :
  toasts (ingest order cb c) = partitionToasts (invalidToastOf c) cb (input c).
Proof.
  destruct c as [files|files d|items]; cbn [ingest input invalidToastOf].
  - rewrite handleFileUpload_eq.
    destruct (uniqueFiles cb files); [reflexivity | apply toasts_finish].
  - rewrite handleWindowDrop_eq. cbn [snd].
    destruct (uniqueFiles cb files); [reflexivity | apply toasts_finish].
  - rewrite handlePaste_eq.
    destruct (pastedFiles items) as [|p fs]; [reflexivity|].
    destruct (uniqueFiles cb (p :: fs)); [reflexivity | apply toasts_finish].
Qed.

(** X2. Offering again a file that was ingested is caught: when the two
    classification passes agree on the file, its own block makes it a
    duplicate wherever the block stands in the collection, so a call that
    offers just this file leaves the collection as it was and raises the
    duplicate toast naming it. *)
Theorem X2_reoffered_file_is_a_duplicate
    (f : File.t) (b : ContentBlock) (pre post prev : list ContentBlock)
    (order : list nat) (c : Call) :
  UseFileUpload.isFileSupported f = true ->
  materialize f = Resolved b ->
  passesAgree f ->
  input c = [f] ->
  let o := ingest order (pre ++ b :: post) c in
  isDuplicate f (pre ++ b :: post) = true
  /\ commit prev o = prev
  /\ toasts o = [duplicateToast [f]]
  /\ completion o = Returned.
Proof.
  intros Hs Hb Hag Hin. cbv zeta.
  pose proof (isDuplicate_of_own_block f b pre post Hs Hb Hag) as Hd.
  split; [exact Hd|].
  assert (Hu : uniqueFiles (pre ++ b :: post) (input c) = []).
  { rewrite Hin. unfold uniqueFiles, validFiles. cbn.
    rewrite Hs. cbn. now rewrite Hd. }
  split; [|split].
  - destruct (ingest_cases order (pre ++ b :: post) c)
      as [[_ [_ Ha]] | [Hne _]]; [|congruence].
    unfold commit. destruct Ha as [-> | ->]; cbn; auto using app_nil_r.
  - rewrite toasts_ingest, Hin.
    unfold partitionToasts, invalidFiles, duplicateFiles, validFiles. cbn.
    rewrite Hs. cbn. rewrite Hd. reflexivity.
  - destruct (ingest_cases order (pre ++ b :: post) c)
      as [[_ [Hc _]] | [Hne _]]; [exact Hc|congruence].
Qed.

Lemma X2_reoffered_witness :
  isDuplicate a_png [TextBlock "seed"; imageBlock a_png (Some "iVBORw0KGgo=")]
  = true.
Proof.
  apply (X2_reoffered_file_is_a_duplicate a_png
           (imageBlock a_png (Some "iVBORw0KGgo=")) [TextBlock "seed"] []
           [] [0] (Selection [a_png]));
    reflexivity.
Defined.

(** X3. A file accepted for its text media type whose name ends with no
    allow-listed extension is never a duplicate: no rule of [isDuplicate]
    applies to it. Offered while its own block is in the collection, it
    is appended once more, with no toast. *)
Theorem X3_text_type_without_extension_is_never_a_duplicate
    (f : File.t) (body : string) (contentBlocks prev : list ContentBlock)
    (order : list nat) (c : Call) :
  includes supportedTextTypes (File.type f) = true ->
  hasTextExtension f = false ->
  File.text f = Some body ->
  input c = [f] ->
  In 0 order ->
  let o := ingest order contentBlocks c in
  isDuplicate f contentBlocks = false
  /\ commit prev o = (prev ++ [textBlock f body])%list
  /\ toasts o = [].
Proof.
  intros Ht Hext Hbody Hin Hord. cbv zeta.
  destruct (text_type_not_binary _ Ht) as [Himg [Hpdf [Hi Hp]]].
  assert (Hd : isDuplicate f contentBlocks = false).
  { unfold isDuplicate. fold (hasTextExtension f).
    now rewrite Hext, Hpdf, Himg. }
  assert (Hs : UseFileUpload.isFileSupported f = true).
  { rewrite gate_split, Ht. now rewrite !orb_true_r. }
  assert (Hu : uniqueFiles contentBlocks (input c) = [f]).
  { rewrite Hin. unfold uniqueFiles, validFiles. cbn.
    rewrite Hs. cbn. now rewrite Hd. }
  assert (Hm : materialize f = Resolved (textBlock f body)).
  { unfold materialize. rewrite (convert_supported f Hs). cbn [snd].
    rewrite Hi, Hp. unfold fileText. now rewrite Hbody. }
  split; [exact Hd|]. split.
  - destruct (ingest_cases order contentBlocks c)
      as [[Hnil _] | [_ [ts [p [cl ->]]]]]; [congruence|].
    rewrite commit_finish, Hu.
    destruct (awaitAll_succeeds order [f]) as [bs [E Hbs]].
    + intros i Hi'. simpl in Hi'. now replace i with 0 by lia.
    + intros g [<-|[]] [e He]. congruence.
    + rewrite E. cbn in Hbs. rewrite Hm in Hbs.
      destruct bs as [|b0 [|b1 bs]]; try discriminate.
      now injection Hbs as <-.
  - rewrite toasts_ingest, Hin.
    unfold partitionToasts, invalidFiles, duplicateFiles, validFiles. cbn.
    rewrite Hs. cbn. now rewrite Hd.
Qed.

Lemma X3_never_a_duplicate_witness :
  commit [textBlock readme "hi"]
    (handleFileUpload [0] [textBlock readme "hi"] (Some [readme]))
  = [textBlock readme "hi"; textBlock readme "hi"].
Proof.
  destruct (X3_text_type_without_extension_is_never_a_duplicate readme "hi"
              [textBlock readme "hi"] [textBlock readme "hi"] [0]
              (Selection [readme]) eq_refl eq_refl eq_refl eq_refl
              (or_introl eq_refl)) as [_ [H _]].
  exact H.
Defined.

(** ** Partition and diagnostics *)

Lemma filter_split_perm {A : Type} (p : A -> bool) (l : list A) :
  Permutation l (filter (fun x => negb (p x)) l ++ filter p l).
Proof.
  induction l as [|x l IH]; simpl; auto.
  destruct (p x); simpl.
  - now apply Permutation_cons_app.
  - now constructor.
Qed.

(** X4. Every file of a batch lands in exactly one of the three groups the
    handlers compute: the invalid, the duplicate and the unique files
    together are the input, each file counted once. *)
Theorem X4_every_file_is_invalid_duplicate_or_unique
    (contentBlocks : list ContentBlock) (files : list File.t) :
  Permutation files
    (invalidFiles files ++ duplicateFiles contentBlocks files
     ++ uniqueFiles contentBlocks files)
  /\ length files
     = length (invalidFiles files)
       + length (duplicateFiles contentBlocks files)
       + length (uniqueFiles contentBlocks files).
Proof.
  assert (H : Permutation files
                (invalidFiles files ++ duplicateFiles contentBlocks files
                 ++ uniqueFiles contentBlocks files)).
  { unfold invalidFiles, duplicateFiles, uniqueFiles.
    eapply Permutation_trans;
      [apply (filter_split_perm UseFileUpload.isFileSupported)|].
    apply Permutation_app_head. fold (validFiles files).
    eapply Permutation_trans;
      [apply (filter_split_perm (fun f => isDuplicate f contentBlocks))|].
    apply Permutation_app_comm. }
  split; [exact H|].
  apply Permutation_length in H. rewrite !length_app in H. lia.
Qed.

(** X5. A call raises no toast exactly when it drops no file, that is when
    every file of the input is supported and none is a duplicate; it
    raises at most two partition toasts, the invalid-type one first. *)
Theorem X5_silent_exactly_when_nothing_is_dropped
    (order : list nat) (contentBlocks : list ContentBlock) (c : Call) :
  let o := ingest order contentBlocks c in
  (toasts o = [] <->
   forall f, In f (input c) ->
     UseFileUpload.isFileSupported f = true
     /\ isDuplicate f contentBlocks = false)
  /\ length (toasts o) <= 2
  /\ (invalidFiles (input c) <> [] ->
      hd_error (toasts o) = Some (invalidToastOf c)).
Proof.
  cbv zeta. rewrite toasts_ingest. unfold partitionToasts.
  split; [|split].
  - split.
    + intros H f Hin.
      destruct (UseFileUpload.isFileSupported f) eqn:Hs.
      * split; auto. destruct (isDuplicate f contentBlocks) eqn:Hd; auto.
        assert (Hf : In f (duplicateFiles contentBlocks (input c))).
        { unfold duplicateFiles, validFiles. rewrite !filter_In. auto. }
        destruct (duplicateFiles contentBlocks (input c));
          [contradiction|].
        destruct (invalidFiles (input c)); discriminate.
      * assert (Hf : In f (invalidFiles (input c))).
        { unfold invalidFiles. rewrite filter_In, Hs. auto. }
        destruct (invalidFiles (input c)); [contradiction|discriminate].
    + intros H.
      assert (Hi : invalidFiles (input c) = []).
      { destruct (invalidFiles (input c)) as [|g l] eqn:E; auto.
        assert (Hg : In g (invalidFiles (input c)))
          by (rewrite E; now left).
        unfold invalidFiles in Hg. apply filter_In in Hg.
        destruct Hg as [Hg1 Hg2]. destruct (H g Hg1) as [Hs _].
        rewrite Hs in Hg2. discriminate. }
      assert (Hd : duplicateFiles contentBlocks (input c) = []).
      { destruct (duplicateFiles contentBlocks (input c)) as [|g l] eqn:E;
          auto.
        assert (Hg : In g (duplicateFiles contentBlocks (input c)))
          by (rewrite E; now left).
        unfold duplicateFiles, validFiles in Hg.
        rewrite !filter_In in Hg. destruct Hg as [[Hg1 _] Hg2].
        destruct (H g Hg1) as [_ Hd]. congruence. }
      now rewrite Hi, Hd.
  - destruct (invalidFiles (input c)),
             (duplicateFiles contentBlocks (input c)); cbn; lia.
  - intros Hne. destruct (invalidFiles (input c)); [congruence|reflexivity].
Qed.

Lemma X5_silent_witness :
  toasts (handleFileUpload [0; 1] [] (Some [a_png; c_txt])) = [].
Proof.
  destruct (X5_silent_exactly_when_nothing_is_dropped [0; 1] []
              (Selection [a_png; c_txt])) as [[_ H] _].
  apply H. intros f [<-|[<-|[]]]; split; reflexivity.
Defined.

(** ** The drag state *)

Lemma run_app (d : DragState) (l1 l2 : list WindowEvent) :
  run d (l1 ++ l2) = run (run d l1) l2.
Proof. unfold run. apply fold_left_app. Qed.

Lemma run_enters (n : nat) : forall c h,
  run (mkDrag c h) (repeat (dragenter Files) n)
  = mkDrag (c + Z.of_nat n) (match n with O => h | S _ => true end).
Proof.
  induction n as [|n IH]; intros c h.
  - cbn. f_equal. lia.
  - cbn [repeat]. unfold run in *. cbn [fold_left].
    change (dispatch (mkDrag c h) (dragenter Files))
      with (mkDrag (c + 1) true).
    rewrite IH. f_equal; [lia | now destruct n].
Qed.

Lemma run_leaves (m : nat) : forall c h,
  (0 <= c)%Z -> h = (0 <? c)%Z ->
  run (mkDrag c h) (repeat (dragleave Files) m)
  = mkDrag (Z.max 0 (c - Z.of_nat m)) (0 <? c - Z.of_nat m)%Z.
Proof.
  induction m as [|m IH]; intros c h Hc Hh.
  - cbn [repeat run fold_left Z.of_nat]. rewrite Z.sub_0_r, Hh.
    f_equal. lia.
  - cbn [repeat]. unfold run in *. cbn [fold_left].
    replace (dispatch (mkDrag c h) (dragleave Files))
      with (mkDrag (Z.max 0 (c - 1)) (0 <? c - 1)%Z).
    + rewrite IH;
        [|lia
         |destruct (Z.ltb_spec 0 (c - 1));
          destruct (Z.ltb_spec 0 (Z.max 0 (c - 1))); auto; lia].
      f_equal; [lia|].
      destruct (Z.ltb_spec 0 (Z.max 0 (c - 1) - Z.of_nat m));
        destruct (Z.ltb_spec 0 (c - Z.of_nat (S m))); auto; lia.
    + cbn [dispatch]. unfold handleWindowDragLeave.
      change (hasFiles Files) with true. cbn [dragCounter dragOver].
      destruct (Z.leb_spec (c - 1) 0); destruct (Z.ltb_spec 0 (c - 1));
        try lia.
      * f_equal. lia.
      * subst h. destruct (Z.ltb_spec 0 c); [f_equal; lia | lia].
Qed.

(** X6. Under window-level drag events the hover flag and the counter stay
    in step: after any sequence of events from the initial state,
    [dragOver] is on exactly when the counter is positive. *)
Theorem X6_hover_is_on_exactly_when_counter_is_positive
    (events : list WindowEvent) :
  dragOver (run initialDrag events)
  = (0 <? dragCounter (run initialDrag events))%Z.
Proof.
  unfold run.
  assert (H : forall d, (0 <= dragCounter d)%Z ->
                        dragOver d = (0 <? dragCounter d)%Z ->
                        (0 <= dragCounter (fold_left dispatch events d))%Z
                        /\ dragOver (fold_left dispatch events d)
                           = (0 <? dragCounter
                                     (fold_left dispatch events d))%Z).
  { induction events as [|e events IH]; intros d H0 H1; cbn [fold_left];
      [auto|].
    apply IH; destruct d as [c h]; cbn [dragCounter dragOver] in *;
      destruct e as [types|types|order cb dt|]; cbn [dispatch];
      unfold handleWindowDragEnter, handleWindowDragLeave,
             handleWindowDragEnd;
      try (destruct (hasFiles types));
      try (destruct dt as [files|]; [rewrite handleWindowDrop_eq|]);
      cbn [fst dragCounter dragOver handleWindowDrop];
      try (destruct (Z.leb_spec (c - 1) 0));
      cbn [dragCounter dragOver]; try lia; auto;
      try (symmetry; apply Z.ltb_lt; lia);
      try (subst h; destruct (Z.ltb_spec 0 c);
           destruct (Z.ltb_spec 0 (c - 1)); auto; lia). }
  apply H; cbn; [lia | reflexivity].
Qed.

(** X7. After [n] drag-enter events followed by [m] drag-leave events, all
    carrying files, the counter is [n - m] clamped at zero and the hover
    flag is on exactly when more enters than leaves arrived; as many
    leaves as enters bring the initial state back. *)
Theorem X7_enters_then_leaves (n m : nat) :
  run initialDrag (entersThenLeaves n m)
  = mkDrag (Z.max 0 (Z.of_nat n - Z.of_nat m)) (m <? n)%nat
  /\ run initialDrag (entersThenLeaves n n) = initialDrag.
Proof.
  assert (H : forall k, run initialDrag (entersThenLeaves n k)
                        = mkDrag (Z.max 0 (Z.of_nat n - Z.of_nat k))
                            (k <? n)%nat).
  { intros k. unfold entersThenLeaves, initialDrag.
    rewrite run_app, run_enters, run_leaves.
    - f_equal. cbn [Z.add].
      destruct (Z.ltb_spec 0 (Z.of_nat n - Z.of_nat k));
        destruct (Nat.ltb_spec k n); auto; lia.
    - lia.
    - destruct n; [reflexivity|]. symmetry. apply Z.ltb_lt. lia. }
  split; [apply H|]. rewrite H. unfold initialDrag. f_equal; [lia|].
  apply Nat.ltb_irrefl.
Qed.

(* ================================================================== *)
(** * Further properties of the converter *)
(* ================================================================== *)

Lemma split_from_without (sep : ascii) (s : string) : forall cur,
  hasChar sep s = false -> split_from sep cur s = [cur ++ s].
Proof.
  induction s as [|a s IH]; intros cur H; simpl in *.
  - now rewrite append_empty_r.
  - apply orb_false_iff in H. destruct H as [Ha Hs]. rewrite Ha.
    rewrite IH by exact Hs. now rewrite append_assoc.
Qed.

Lemma split_from_first (sep : ascii) (a : string) : forall cur b,
  hasChar sep a = false ->
  split_from sep cur (a ++ String sep b)
  = (cur ++ a) :: split_from sep EmptyString b.
Proof.
  induction a as [|x a IH]; intros cur b H; simpl in *.
  - now rewrite Ascii.eqb_refl, append_empty_r.
  - apply orb_false_iff in H. destruct H as [Hx Ha]. rewrite Hx.
    rewrite IH by exact Ha. now rewrite append_assoc.
Qed.

(** X8. [fileToBase64] hands over what stands between the first and the
    second comma of the data URL: for a reader result [header,payload]
    with no further comma that is the payload, whatever the header says;
    a result that holds no comma gives [undefined]; a reader error rejects
    the promise. *)
Theorem X8_fileToBase64_strips_the_data_url_header (f : File.t) :
  (forall header payload,
     hasChar "," header = false -> hasChar "," payload = false ->
     File.readAsDataURL f = Some (header ++ "," ++ payload) ->
     fileToBase64 f = Resolved (Some payload))
  /\ (forall header payload rest,
        hasChar "," header = false -> hasChar "," payload = false ->
        File.readAsDataURL f = Some (header ++ "," ++ payload ++ "," ++ rest) ->
        fileToBase64 f = Resolved (Some payload))
  /\ (forall result,
        hasChar "," result = false ->
        File.readAsDataURL f = Some result ->
        fileToBase64 f = Resolved None)
  /\ (File.readAsDataURL f = None -> fileToBase64 f = Rejected ReadError).
Proof.
  unfold fileToBase64, JS.split. repeat split.
  - intros header payload Hh Hp ->.
    change (header ++ "," ++ payload) with (header ++ String "," payload).
    rewrite split_from_first by exact Hh.
    now rewrite split_from_without by exact Hp.
  - intros header payload rest Hh Hp ->.
    change (header ++ "," ++ payload ++ "," ++ rest)
      with (header ++ String "," (payload ++ String "," rest)).
    rewrite split_from_first by exact Hh.
    now rewrite split_from_first by exact Hp.
  - intros result Hr ->. now rewrite split_from_without by exact Hr.
  - intros ->. reflexivity.
Qed.

Lemma X8_fileToBase64_witness :
  fileToBase64 a_png = Resolved (Some "iVBORw0KGgo=").
Proof.
  destruct (X8_fileToBase64_strips_the_data_url_header a_png) as [H _].
  apply (H "data:image/png;base64" "iVBORw0KGgo="); reflexivity.
Defined.

Lemma resolved_is_supported (f : File.t) (b : ContentBlock) :
  materialize f = Resolved b -> UseFileUpload.isFileSupported f = true.
Proof.
  unfold materialize, fileToContentBlock. rewrite same_gate.
  destruct (UseFileUpload.isFileSupported f); [reflexivity|].
  cbn. discriminate.
Qed.

(** X9. The type guard [isBase64ContentBlock] accepts the object of every
    Image and Document block that [fileToContentBlock] resolves with, and
    refuses the object of every Text block it resolves with. *)
Theorem X9_guard_accepts_exactly_the_binary_blocks
    (f : File.t) (b : ContentBlock) :
  materialize f = Resolved b ->
  isBase64ContentBlock (toJS b)
  = match b with
    | TextBlock _ => false
    | Base64Block _ _ _ _ => true
    end.
Proof.
  intros Hb. pose proof (resolved_is_supported f b Hb) as Hs.
  unfold materialize in Hb. rewrite (convert_supported f Hs) in Hb.
  cbn [snd] in Hb. unfold fileToBase64, fileText in Hb.
  destruct (includes supportedImageTypes (File.type f)) eqn:Ei;
    [|destruct (includes supportedPdfTypes (File.type f)) eqn:Ep].
  - destruct (image_type_prefix _ Ei) as [Hp _].
    destruct (File.readAsDataURL f); cbn [await] in Hb; [|discriminate].
    injection Hb as <-. unfold imageBlock, isBase64ContentBlock. cbn.
    now rewrite Hp.
  - destruct (File.readAsDataURL f); cbn [await] in Hb; [|discriminate].
    injection Hb as <-. reflexivity.
  - destruct (File.text f); cbn [await] in Hb; [|discriminate].
    injection Hb as <-. reflexivity.
Qed.

Lemma X9_guard_witness :
  isBase64ContentBlock (toJS (imageBlock a_png (Some "iVBORw0KGgo=")))
  = true.
Proof.
  apply (X9_guard_accepts_exactly_the_binary_blocks a_png
           (imageBlock a_png (Some "iVBORw0KGgo="))).
  reflexivity.
Defined.

(* ================================================================== *)
(** * Properties of the preview *)
(* ================================================================== *)

Import ContentBlocksPreview.

Lemma prefix_empty (s : string) : String.prefix EmptyString s = true.
Proof. now destruct s. Qed.

Lemma splitOn_first_paragraph (s1 : string) : forall cur rest,
  hasChar "010" s1 = false ->
  splitOn_from (LF ++ LF) 0 cur (s1 ++ LF ++ LF ++ rest)
  = (cur ++ s1) :: splitOn_from (LF ++ LF) 0 EmptyString rest.
Proof.
  induction s1 as [|a s1 IH]; intros cur rest H.
  - rewrite append_empty_r. cbn. now rewrite prefix_empty.
  - simpl in H. apply orb_false_iff in H. destruct H as [Ha Hs].
    change ((String a s1) ++ LF ++ LF ++ rest)
      with (String a (s1 ++ LF ++ LF ++ rest)).
    cbn [splitOn_from]. unfold LF at 1. cbn [append String.prefix].
    destruct (ascii_dec "010" a) as [<-|Hne]; [discriminate|].
    rewrite IH by exact Hs. now rewrite append_assoc.
Qed.

Lemma label_of_text (name body : string) :
  hasChar "010" name = false ->
  label ("File: " ++ name ++ LF ++ LF ++ body) = name.
Proof.
  intros H. unfold label, splitOn.
  replace ("File: " ++ name ++ LF ++ LF ++ body)
    with (("File: " ++ name) ++ LF ++ LF ++ body)
    by now rewrite append_assoc.
  change (match LF ++ LF with
          | EmptyString => chars (("File: " ++ name) ++ LF ++ LF ++ body)
          | String _ _ =>
              splitOn_from (LF ++ LF) 0 EmptyString
                (("File: " ++ name) ++ LF ++ LF ++ body)
          end)
    with (splitOn_from (LF ++ LF) 0 EmptyString
            (("File: " ++ name) ++ LF ++ LF ++ body)).
  rewrite splitOn_first_paragraph by (cbn; exact H).
  cbn [hd append JS.replace String.prefix].
  repeat match goal with
         | |- context [ascii_dec ?a ?a] =>
             destruct (ascii_dec a a); [|congruence]
         end.
  rewrite prefix_empty. reflexivity.
Qed.

(** X10. The chip of a text attachment shows the name of its file: for a
    file whose name holds no line feed, the label the preview derives from
    the Text block that [fileToContentBlock] resolved with is the file's
    name, whatever the file's content. *)
Theorem X10_text_chip_shows_the_file_name (f : File.t) (text : string) :
  hasChar "010" (File.name f) = false ->
  materialize f = Resolved (TextBlock text) ->
  label text = File.name f
  /\ render [TextBlock text] None = Some [TextChip 0 (File.name f) 0].
Proof.
  intros Hn Hb. pose proof (resolved_is_supported f _ Hb) as Hs.
  unfold materialize in Hb. rewrite (convert_supported f Hs) in Hb.
  cbn [snd] in Hb. unfold fileToBase64, fileText in Hb.
  assert (Hl : label text = File.name f).
  { destruct (includes supportedImageTypes (File.type f));
      [|destruct (includes supportedPdfTypes (File.type f))].
    - destruct (File.readAsDataURL f); cbn [await] in Hb; discriminate.
    - destruct (File.readAsDataURL f); cbn [await] in Hb; discriminate.
    - destruct (File.text f) as [body|]; cbn [await] in Hb; [|discriminate].
      injection Hb as <-. now apply label_of_text. }
  split; [exact Hl|]. cbn [render elementsFrom]. now rewrite Hl.
Qed.

Lemma X10_text_chip_witness :
  label ("File: C.txt" ++ LF ++ LF ++ "hello") = "C.txt".
Proof.
  apply (X10_text_chip_shows_the_file_name c_txt
           ("File: C.txt" ++ LF ++ LF ++ "hello")); reflexivity.
Defined.

Lemma elementsFrom_length (sz : string) (blocks : list ContentBlock) :
  forall i, length (elementsFrom i sz blocks) = length blocks.
Proof.
  induction blocks as [|[ty m d md|text] blocks IH]; intros i; simpl;
    auto.
Qed.

Lemma elementsFrom_nth (size : option string)
    (blocks : list ContentBlock) : forall i k e,
  nth_error
    (elementsFrom i (match size with Some s => s | None => "md" end) blocks)
    k = Some e ->
  removeIndex e = i + k
  /\ exists b, nth_error blocks k = Some b /\ shows size (i + k) b e.
Proof.
  induction blocks as [|b blocks IH]; intros i k e H.
  - destruct k; discriminate.
  - destruct k as [|k].
    + rewrite Nat.add_0_r.
      destruct b as [ty m d md|text]; cbn in H; injection H as <-;
        cbn; split; auto; eexists; split; eauto; cbn; auto.
    + replace (i + S k) with (S i + k) by lia.
      destruct b as [ty m d md|text]; cbn in H; apply IH in H; exact H.
Qed.

(** X11. The preview renders nothing exactly for an empty collection;
    otherwise it renders one element per block, in the order of the
    collection, and the element at position [k] shows block [k] and
    reports index [k] to [onRemove], so that the hook's [removeBlock],
    given that index, drops the block shown and no other. *)
Theorem X11_preview_element_removes_the_block_it_shows
    (blocks : list ContentBlock) (size : option string) :
  (render blocks size = None <-> blocks = [])
  /\ forall els, render blocks size = Some els ->
       length els = length blocks
       /\ forall k e, nth_error els k = Some e ->
            removeIndex e = k
            /\ (exists b, nth_error blocks k = Some b /\ shows size k b e)
            /\ removeBlock (removeIndex e) blocks
               = (firstn k blocks ++ skipn (S k) blocks)%list.
Proof.
  split.
  - destruct blocks; cbn; split; intros; congruence.
  - intros els H. destruct blocks as [|b0 blocks]; [discriminate|].
    change (render (b0 :: blocks) size)
      with (Some (elementsFrom 0
                    (match size with Some sz => sz | None => "md" end)
                    (b0 :: blocks))) in H.
    injection H as <-.
    split;
      [exact (elementsFrom_length
                (match size with Some sz => sz | None => "md" end)
                (b0 :: blocks) 0)|].
    intros k e He.
    destruct (elementsFrom_nth size (b0 :: blocks) 0 k e He) as [Hi Hb].
    cbn [Nat.add] in Hi, Hb.
    split; [exact Hi|]. split; [exact Hb|].
    rewrite Hi. unfold removeBlock.
    apply (filterIndexFrom_drops (b0 :: blocks) 0 k).
Qed.

Lemma X11_preview_witness :
  removeBlock (removeIndex (TextChip 1 "C.txt" 1))
    [imageBlock a_png None; textBlock c_txt "hello"]
  = [imageBlock a_png None].
Proof.
  destruct (X11_preview_element_removes_the_block_it_shows
              [imageBlock a_png None; textBlock c_txt "hello"] None)
    as [_ H].
  destruct (H _ eq_refl) as [_ H'].
  destruct (H' 1 (TextChip 1 "C.txt" 1) eq_refl) as [_ [_ H'']].
  exact H''.
Defined.

(* ================================================================== *)
(** * Properties of the configuration panel *)
(* ================================================================== *)

Import RunnableConfigPanel.

Lemma includes_false (arr : list string) (x : string) :
  includes arr x = false <-> ~ In x arr.
Proof.
  rewrite <- includes_spec. destruct (includes arr x); split; intros;
    congruence.
Qed.

Lemma nonEmpty_spec (s : string) : nonEmpty s = true <-> s <> EmptyString.
Proof.
  unfold nonEmpty. destruct (String.eqb_spec s EmptyString); split;
    intros; try congruence; auto; discriminate.
Qed.

Lemma filter_out_last (t : string) (ts : list string) :
  ~ In t ts ->
  filter (fun tag => negb (String.eqb tag t)) (ts ++ [t])%list = ts.
Proof.
  intros H. rewrite filter_app. cbn. rewrite String.eqb_refl. cbn.
  rewrite app_nil_r. induction ts as [|x ts IH]; cbn; auto.
  destruct (String.eqb_spec x t) as [->|Hne].
  - exfalso. apply H. now left.
  - cbn. f_equal. apply IH. intros Hin. apply H. now right.
Qed.

Lemma addTag_appends (st : State) :
  trim (newTag st) <> EmptyString ->
  ~ In (trim (newTag st)) (tagsOrEmpty (localConfig st)) ->
  tagsOrEmpty (localConfig (addTag st))
  = (tagsOrEmpty (localConfig st) ++ [trim (newTag st)])%list
  /\ newTag (addTag st) = EmptyString.
Proof.
  intros Hne Hin. unfold addTag, tagsInclude.
  apply nonEmpty_spec in Hne. rewrite Hne.
  unfold tagsOrEmpty in *.
  destruct (tags (localConfig st)) as [ts|] eqn:E; cbn.
  - apply includes_false in Hin. rewrite Hin. cbn. auto.
  - auto.
Qed.

Lemma addTag_noop (st : State) :
  trim (newTag st) = EmptyString
  \/ In (trim (newTag st)) (tagsOrEmpty (localConfig st)) ->
  addTag st = st.
Proof.
  intros H. unfold addTag, tagsInclude.
  destruct (nonEmpty (trim (newTag st))) eqn:Hne; [|reflexivity].
  apply nonEmpty_spec in Hne. destruct H as [H|H]; [contradiction|].
  unfold tagsOrEmpty in H.
  destruct (tags (localConfig st)) as [ts|]; [|contradiction].
  apply includes_spec in H. now rewrite H.
Qed.

Lemma addTag_frame (st : State) :
  metadata (localConfig (addTag st)) = metadata (localConfig st)
  /\ configurable (localConfig (addTag st)) = configurable (localConfig st)
  /\ others (localConfig (addTag st)) = others (localConfig st).
Proof.
  unfold addTag.
  destruct (nonEmpty _ && negb _); repeat split; reflexivity.
Qed.

(** X12. [addTag] keeps the tag list free of duplicates and of blank
    entries: it appends the trimmed input, and clears the input, only when
    the trimmed input is not empty and not yet a tag; otherwise it leaves
    the whole state, the input included, as it is. Nothing but [tags] and
    the input ever changes. *)
Theorem X12_addTag_keeps_tags_distinct (st : State) :
  let t := trim (newTag st) in
  let ts := tagsOrEmpty (localConfig st) in
  let st' := addTag st in
  (NoDup ts -> NoDup (tagsOrEmpty (localConfig st')))
  /\ (~ In EmptyString ts -> ~ In EmptyString (tagsOrEmpty (localConfig st')))
  /\ (t <> EmptyString -> ~ In t ts ->
      tagsOrEmpty (localConfig st') = (ts ++ [t])%list
      /\ newTag st' = EmptyString)
  /\ (t = EmptyString \/ In t ts -> st' = st)
  /\ metadata (localConfig st') = metadata (localConfig st)
  /\ configurable (localConfig st') = configurable (localConfig st)
  /\ others (localConfig st') = others (localConfig st).
Proof.
  cbv zeta.
  split; [|split; [|split; [apply addTag_appends
                           |split; [apply addTag_noop|apply addTag_frame]]]].
  - intros Hnd.
    destruct (string_dec (trim (newTag st)) EmptyString) as [He|Hne];
      [now rewrite addTag_noop by now left|].
    destruct (in_dec string_dec (trim (newTag st))
                (tagsOrEmpty (localConfig st))) as [Hin|Hin];
      [now rewrite addTag_noop by now right|].
    destruct (addTag_appends st Hne Hin) as [-> _].
    apply NoDup_app; auto.
    + constructor; [intros []|constructor].
    + intros x H1 [<-|[]]. contradiction.
  - intros H0.
    destruct (string_dec (trim (newTag st)) EmptyString) as [He|Hne];
      [now rewrite addTag_noop by now left|].
    destruct (in_dec string_dec (trim (newTag st))
                (tagsOrEmpty (localConfig st))) as [Hin|Hin];
      [now rewrite addTag_noop by now right|].
    destruct (addTag_appends st Hne Hin) as [-> _].
    intros H. apply in_app_or in H. destruct H as [H|[H|[]]]; auto.
Qed.

Lemma X12_addTag_witness :
  tagsOrEmpty (localConfig (addTag sampleState)) = ["alpha"; "beta"; "draft"]
  /\ newTag (addTag sampleState) = EmptyString.
Proof.
  destruct (X12_addTag_keeps_tags_distinct sampleState)
    as [_ [_ [H _]]].
  apply H.
  - discriminate.
  - intros [H'|[H'|[]]]; discriminate.
Defined.

(** X13. [removeTag] removes every occurrence of the tag and keeps the
    other tags in order; removing a tag right after [addTag] added it
    gives back the tag list there was before. *)
Theorem X13_removeTag_undoes_addTag (st : State) (tag : string) :
  let t := trim (newTag st) in
  let ts := tagsOrEmpty (localConfig st) in
  tagsOrEmpty (localConfig (removeTag tag st))
  = filter (fun x => negb (String.eqb x tag)) ts
  /\ ~ In tag (tagsOrEmpty (localConfig (removeTag tag st)))
  /\ (t <> EmptyString -> ~ In t ts ->
      tagsOrEmpty (localConfig (removeTag t (addTag st))) = ts).
Proof.
  cbv zeta.
  assert (H1 : forall s x,
            tagsOrEmpty (localConfig (removeTag x s))
            = filter (fun y => negb (String.eqb y x))
                (tagsOrEmpty (localConfig s))).
  { intros s x. unfold removeTag, tagsOrEmpty. cbn.
    destruct (tags (localConfig s)); reflexivity. }
  split; [apply H1|]. split.
  - rewrite H1. intros H. apply filter_In in H. destruct H as [_ H].
    now rewrite String.eqb_refl in H.
  - intros Hne Hin. rewrite H1.
    destruct (addTag_appends st Hne Hin) as [-> _].
    now apply filter_out_last.
Qed.

Lemma X13_removeTag_witness :
  tagsOrEmpty (localConfig (removeTag "draft" (addTag sampleState)))
  = ["alpha"; "beta"].
Proof.
  destruct (X13_removeTag_undoes_addTag sampleState "draft") as [_ [_ H]].
  apply H.
  - discriminate.
  - intros [H'|[H'|[]]]; discriminate.
Defined.

(** ** Objects *)

Lemma get_set_same (k : string) (v : JSValue) (o : Obj.t) :
  Obj.get k (Obj.set k v o) = Some v.
Proof.
  induction o as [|[k0 w] o IH]; cbn.
  - now rewrite String.eqb_refl.
  - destruct (String.eqb_spec k0 k) as [->|Hne]; cbn.
    + now rewrite String.eqb_refl.
    + destruct (String.eqb_spec k0 k); [contradiction|exact IH].
Qed.

Lemma get_set_other (k k' : string) (v : JSValue) (o : Obj.t) :
  k' <> k -> Obj.get k' (Obj.set k v o) = Obj.get k' o.
Proof.
  intros Hne. induction o as [|[k0 w] o IH]; cbn.
  - destruct (String.eqb_spec k k'); [congruence|reflexivity].
  - destruct (String.eqb_spec k0 k) as [->|Hk]; cbn.
    + destruct (String.eqb_spec k k'); [congruence|reflexivity].
    + destruct (String.eqb_spec k0 k'); [reflexivity|exact IH].
Qed.

Lemma get_delete_same (k : string) (o : Obj.t) :
  Obj.get k (Obj.delete k o) = None.
Proof.
  induction o as [|[k0 w] o IH]; cbn; auto.
  destruct (String.eqb_spec k0 k) as [->|Hne]; cbn; auto.
  destruct (String.eqb_spec k0 k); [contradiction|exact IH].
Qed.

Lemma get_delete_other (k k' : string) (o : Obj.t) :
  k' <> k -> Obj.get k' (Obj.delete k o) = Obj.get k' o.
Proof.
  intros Hne. induction o as [|[k0 w] o IH]; cbn; auto.
  destruct (String.eqb_spec k0 k) as [->|Hk]; cbn.
  - destruct (String.eqb_spec k k'); [congruence|exact IH].
  - destruct (String.eqb_spec k0 k'); [reflexivity|exact IH].
Qed.

Lemma In_set (k : string) (v : JSValue) (o : Obj.t) :
  In (k, v) (Obj.set k v o).
Proof.
  induction o as [|[k0 w] o IH]; cbn; auto.
  destruct (String.eqb_spec k0 k) as [->|Hne]; cbn; auto.
Qed.

(** X14. [addConfigurable] and [addMetadata] store the trimmed value under
    the trimmed key, replacing what was there, and touch no other key;
    [removeConfigurable] and [removeMetadata] make the key absent and
    touch no other key. So removing a key that was just added, and that
    was absent before, gives back an object with the properties there
    were before. Blank input (after trimming) changes nothing. *)
Theorem X14_custom_entries_add_and_remove (st : State) :
  let ck := trim (newConfigurableKey st) in
  let cv := trim (newConfigurableValue st) in
  let mk := trim (newMetadataKey st) in
  let mv := trim (newMetadataValue st) in
  let conf s := Obj.spread (configurable (localConfig s)) in
  let meta s := Obj.spread (metadata (localConfig s)) in
  (ck <> EmptyString -> cv <> EmptyString ->
   Obj.get ck (conf (addConfigurable st)) = Some (JSString cv)
   /\ (forall key, key <> ck ->
         Obj.get key (conf (addConfigurable st)) = Obj.get key (conf st))
   /\ (Obj.get ck (conf st) = None ->
       sameProps (conf (removeConfigurable ck (addConfigurable st)))
                 (conf st)))
  /\ (mk <> EmptyString -> mv <> EmptyString ->
      Obj.get mk (meta (addMetadata st)) = Some (JSString mv)
      /\ (forall key, key <> mk ->
            Obj.get key (meta (addMetadata st)) = Obj.get key (meta st))
      /\ (Obj.get mk (meta st) = None ->
          sameProps (meta (removeMetadata mk (addMetadata st))) (meta st)))
  /\ (forall key,
        Obj.get key (conf (removeConfigurable key st)) = None
        /\ Obj.get key (meta (removeMetadata key st)) = None)
  /\ (ck = EmptyString \/ cv = EmptyString -> addConfigurable st = st)
  /\ (mk = EmptyString \/ mv = EmptyString -> addMetadata st = st).
Proof.
  cbv zeta. repeat split.
  - unfold addConfigurable.
    apply nonEmpty_spec in H, H0. rewrite H, H0. cbn.
    apply get_set_same.
  - intros key Hk. unfold addConfigurable.
    apply nonEmpty_spec in H, H0. rewrite H, H0. cbn.
    now apply get_set_other.
  - intros Habs key. unfold addConfigurable.
    apply nonEmpty_spec in H, H0. rewrite H, H0. cbn.
    destruct (string_dec key (trim (newConfigurableKey st))) as [->|Hk].
    + now rewrite get_delete_same, Habs.
    + rewrite get_delete_other by exact Hk. now apply get_set_other.
  - unfold addMetadata.
    apply nonEmpty_spec in H, H0. rewrite H, H0. cbn.
    apply get_set_same.
  - intros key Hk. unfold addMetadata.
    apply nonEmpty_spec in H, H0. rewrite H, H0. cbn.
    now apply get_set_other.
  - intros Habs key. unfold addMetadata.
    apply nonEmpty_spec in H, H0. rewrite H, H0. cbn.
    destruct (string_dec key (trim (newMetadataKey st))) as [->|Hk].
    + now rewrite get_delete_same, Habs.
    + rewrite get_delete_other by exact Hk. now apply get_set_other.
  - cbn. apply get_delete_same.
  - cbn. apply get_delete_same.
  - intros [H|H]; unfold addConfigurable, nonEmpty; rewrite H; cbn;
      rewrite ?andb_false_r; reflexivity.
  - intros [H|H]; unfold addMetadata, nonEmpty; rewrite H; cbn;
      rewrite ?andb_false_r; reflexivity.
Qed.

Lemma X14_custom_entries_witness :
  Obj.get "owner"
    (Obj.spread (metadata (localConfig (addMetadata sampleState))))
  = Some (JSString "me").
Proof.
  destruct (X14_custom_entries_add_and_remove sampleState)
    as [_ [H _]].
  destruct H as [H _]; [discriminate | discriminate | exact H].
Defined.

(** X15. Flipping the [Use Local Model] switch leaves both model selects on
    a value they offer: after the switch is set to [checked], the flag
    reads [checked], the response-model and embedding-model selects each
    show a model that is among the options listed for that mode, and no
    other configurable key has changed. Choosing one of the offered
    response models afterwards shows that model and keeps the mode. *)
Theorem X15_switch_keeps_model_selects_valid (checked : bool) (st : State) :
  let st' := onUseLocalModelChange checked st in
  let c := localConfig st' in
  useLocalModel c = checked
  /\ (exists m, responseModelValue c = JSString m
                /\ In m (responseModelOptions c))
  /\ (exists m, embeddingModelValue c = JSString m
                /\ In m (embeddingModelOptions c))
  /\ (forall key, key <> "use_local_model" -> key <> "response_model" ->
        key <> "embedding_model" ->
        configurableProp key c = configurableProp key (localConfig st))
  /\ (forall m, In m (responseModelOptions c) ->
        let c2 := localConfig (onResponseModelChange m st') in
        responseModelValue c2 = JSString m
        /\ useLocalModel c2 = checked
        /\ In m (responseModelOptions c2)).
Proof.
  cbv zeta.
  set (o := Obj.spread (configurable (localConfig st))).
  assert (Hu : forall o', Obj.get "use_local_model"
                 (Obj.set "embedding_model" o'
                    (Obj.set "response_model"
                       (JSString (if checked then "ollama/qwen3:14b"
                                  else "openai/gpt-4.1-mini"))
                       (Obj.set "use_local_model" (JSBool checked) o)))
               = Some (JSBool checked)).
  { intros o'. rewrite !get_set_other by discriminate.
    apply get_set_same. }
  assert (Hflag : useLocalModel (localConfig (onUseLocalModelChange checked st))
                  = checked).
  { unfold useLocalModel, configurableProp, onUseLocalModelChange. cbn.
    fold o. rewrite Hu. now destruct checked. }
  assert (Hresp : responseModelValue
                    (localConfig (onUseLocalModelChange checked st))
                  = JSString (if checked then "ollama/qwen3:14b"
                              else "openai/gpt-4.1-mini")).
  { unfold responseModelValue, configurableProp. 
    unfold onUseLocalModelChange at 1. cbn. fold o.
    rewrite get_set_other by discriminate. rewrite get_set_same.
    now destruct checked. }
  assert (Hemb : embeddingModelValue
                   (localConfig (onUseLocalModelChange checked st))
                 = JSString (if checked then "ollama/nomic-embed-text"
                             else "openai/text-embedding-3-small")).
  { unfold embeddingModelValue, configurableProp.
    unfold onUseLocalModelChange at 1. cbn. fold o.
    rewrite get_set_same. now destruct checked. }
  split; [exact Hflag|]. split; [|split; [|split]].
  - eexists. split; [exact Hresp|]. unfold responseModelOptions.
    rewrite Hflag. destruct checked; now left.
  - eexists. split; [exact Hemb|]. unfold embeddingModelOptions.
    rewrite Hflag. destruct checked; now left.
  - intros key H1 H2 H3. unfold configurableProp, onUseLocalModelChange.
    cbn. fold o. rewrite !get_set_other by assumption.
    unfold o, Obj.spread.
    destruct (configurable (localConfig st)); reflexivity.
  - intros m Hm.
    assert (Hne : m <> EmptyString).
    { unfold responseModelOptions in Hm. rewrite Hflag in Hm.
      destruct checked; destruct Hm as [<-|[<-|[]]]; discriminate. }
    assert (Hflag2 : useLocalModel
                       (localConfig
                          (onResponseModelChange m
                             (onUseLocalModelChange checked st)))
                     = checked).
    { unfold useLocalModel, configurableProp, onResponseModelChange,
             onUseLocalModelChange. cbn. fold o.
      rewrite get_set_other by discriminate. rewrite Hu.
      now destruct checked. }
    split; [|split; [exact Hflag2|]].
    + unfold responseModelValue, configurableProp.
      unfold onResponseModelChange at 1. cbn.
      rewrite get_set_same. unfold orElse. cbn.
      destruct (String.eqb_spec m EmptyString); [contradiction|reflexivity].
    + unfold responseModelOptions in *. now rewrite Hflag2, <- Hflag.
Qed.

Lemma X15_switch_witness :
  responseModelValue
    (localConfig
       (onResponseModelChange "openai/gpt-4.1"
          (onUseLocalModelChange false sampleState)))
  = JSString "openai/gpt-4.1".
Proof.
  destruct (X15_switch_keeps_model_selects_valid false sampleState)
    as [_ [_ [_ [_ H]]]].
  destruct (H "openai/gpt-4.1") as [H' _]; [right; left; reflexivity|].
  exact H'.
Defined.

(** X16. A custom parameter is listed, with its remove button, exactly when
    its key is not one of the panel's built-in keys: [addConfigurable]
    stores the trimmed value under any non-blank key, a built-in one
    included, but an entry stored under a built-in key never appears in
    the list; after [removeConfigurable] the key is neither stored nor
    listed. *)
Theorem X16_built_in_keys_are_stored_but_not_listed (st : State) :
  let k := trim (newConfigurableKey st) in
  let v := trim (newConfigurableValue st) in
  (k <> EmptyString -> v <> EmptyString ->
   configurableProp k (localConfig (addConfigurable st)) = JSString v
   /\ (In (k, JSString v) (customEntries (localConfig (addConfigurable st)))
       <-> ~ In k builtInKeys))
  /\ (forall c key value, In (key, value) (customEntries c) ->
        ~ In key builtInKeys
        /\ In (key, value) (Obj.spread (configurable c)))
  /\ (forall key value,
        configurableProp key (localConfig (removeConfigurable key st))
        = JSUndefined
        /\ ~ In (key, value)
             (customEntries (localConfig (removeConfigurable key st)))).
Proof.
  cbv zeta. split; [|split].
  - intros Hk Hv. unfold addConfigurable.
    apply nonEmpty_spec in Hk, Hv. rewrite Hk, Hv. cbn [andb].
    unfold configurableProp, customEntries.
    cbn [localConfig configurable setConfigurable Obj.spread prop].
    rewrite get_set_same.
    split; [reflexivity|]. rewrite filter_In. cbn [fst].
    rewrite negb_true_iff, includes_false. split; [tauto|].
    intros H. split; [apply In_set | exact H].
  - intros c key value H. unfold customEntries in H.
    apply filter_In in H. cbn [fst] in H.
    rewrite negb_true_iff, includes_false in H. tauto.
  - intros key value. unfold configurableProp, customEntries,
      removeConfigurable.
    cbn [localConfig configurable setConfigurable withConfig Obj.spread
         prop].
    rewrite get_delete_same.
    split; [reflexivity|]. intros H. apply filter_In in H.
    destruct H as [H _].
    set (o := Obj.spread (configurable (localConfig st))) in *.
    clearbody o. induction o as [|[k0 w] o IH]; cbn in H; auto.
    destruct (String.eqb_spec k0 key) as [->|Hne]; auto.
    destruct H as [H|H]; auto. injection H as -> _. contradiction.
Qed.

Lemma X16_built_in_key_witness :
  configurableProp "max_iterations" (localConfig (addConfigurable sampleState))
  = JSString "7"
  /\ ~ In ("max_iterations", JSString "7")
       (customEntries (localConfig (addConfigurable sampleState))).
Proof.
  destruct (X16_built_in_keys_are_stored_but_not_listed sampleState)
    as [H _].
  destruct H as [H1 H2]; [discriminate | discriminate |].
  split; [exact H1|]. intros Hin. apply H2 in Hin. apply Hin.
  cbn. tauto.
Defined.
